(** * The freehand [Draw] shape utility (packages/dev/src/state/shapes/draw.tsx)

    A shallow embedding of the [Draw] class and of [getSolidStrokePath].

    Numbers.  JavaScript numbers are binary64 floats.  The class is embedded
    over the exact rationals ([Q]): the numeric comparisons of the source
    ([===], [<], [<=] on numbers) are the boolean comparisons of [Q], and
    results are compared up to [==].  A statement over [Q] that rests on
    comparisons, on copying or on a single operation reads the same in
    doubles; one that rests on an arithmetic identity (a sum that cancels, a
    quotient that multiplies back) holds of the program within numeric
    tolerance only, and says so.  Wherever the source divides, the
    statements over [Q] assume a non-zero divisor.  Module [Double] reads
    [getBounds], [onSessionComplete] and [transform] once more over the
    binary64 floats of the kernel, to run them where rounding or NaN decide
    the outcome.

    Effects.  The class owns five identity-keyed [WeakMap] caches (and
    inherits [boundsCache] from [TLShapeUtil]); methods are computations in
    a state-and-exception monad over the record of caches.  Object identity
    is modelled by structural equality of the key: the point arrays are
    never mutated in place, so a key found in a cache was computed from the
    very same data.  An array with the same contents as a key but another
    identity misses in the program and hits here, with the same value; the
    statements about the contents of a cache are therefore about the key of
    one and the same shape. *)

From Stdlib Require Import QArith Qminmax Lqa List String Bool Lia Arith DecimalString.
From Stdlib Require Floats.PrimFloat.
Import ListNotations.

Local Open Scope Q_scope.

(** ** Data model *)

(** [number[]] of length two: a 2D vector ([shape.point], results of [Vec]). *)
Definition vec : Type := (Q * Q)%type.

(** An element of [shape.points]: [[x, y, pressure?]]. *)
Record Point : Type := mkPoint {
  px : Q;
  py : Q;
  pressure : option Q
}.

Definition xy (p : Point) : vec := (px p, py p).

(** [TLBounds] *)
Record TLBounds : Type := mkBounds {
  minX : Q;
  minY : Q;
  maxX : Q;
  maxY : Q;
  width : Q;
  height : Q
}.

(** [DrawShape['style']] *)
Record DrawStyle : Type := mkStyle {
  size : Q;
  strokeWidth : Q;
  thinning : Q;
  streamline : Q;
  smoothing : Q;
  taperStart : Q;
  taperEnd : Q;
  capStart : bool;
  capEnd : bool;
  isFilled : bool;
  color : string
}.

(** [DrawShape] *)
Record DrawShape : Type := mkShape {
  id : string;
  type : string;
  name : string;
  parentId : string;
  childIndex : Q;
  point : vec;
  points : list Point;
  rotation : Q;
  isDone : bool;
  style : DrawStyle
}.

(** [Partial<DrawShape>] as returned by [transform] and [onSessionComplete]:
    exactly the two keys [points] and [point]. *)
Record PartialShape : Type := mkPartial {
  new_points : list Point;
  new_point : vec
}.

(** Merging a partial result into the shape it was computed for
    ([{ ...shape, ...partial }]). *)
Definition applyPartial (shape : DrawShape) (p : PartialShape) : DrawShape :=
  mkShape (id shape) (type shape) (name shape) (parentId shape)
          (childIndex shape) (new_point p) (new_points p) (rotation shape)
          (isDone shape) (style shape).

(** [TLTransformInfo<DrawShape>] (the fields that [transform] reads). *)
Record TLTransformInfo : Type := mkTransformInfo {
  initialShape : DrawShape;
  scaleX : Q;
  scaleY : Q
}.

(** [TLRenderInfo] (the field that [render] destructures). *)
Record TLRenderInfo : Type := mkRenderInfo {
  isDarkMode : bool
}.

(** A JSX element: its tag and its props, in source order. *)
Inductive PropValue : Type :=
| PStr (s : string)
| PNum (q : Q).

Record JSXElement : Type := mkElement {
  tag : string;
  props : list (string * PropValue)
}.

(** ** Numeric comparisons and equivalences *)

Definition Qltb (a b : Q) : bool := negb (Qle_bool b a).

Definition vec_equiv (a b : vec) : Prop :=
  fst a == fst b /\ snd a == snd b.

Definition opt_equiv (a b : option Q) : Prop :=
  match a, b with
  | Some x, Some y => x == y
  | None, None => True
  | _, _ => False
  end.

Definition Point_equiv (a b : Point) : Prop :=
  px a == px b /\ py a == py b /\ opt_equiv (pressure a) (pressure b).

(** Two points at the same place, whatever their pressure. *)
Definition same_place (a b : Point) : Prop :=
  px a == px b /\ py a == py b.

Definition Bounds_equiv (a b : TLBounds) : Prop :=
  minX a == minX b /\ minY a == minY b /\
  maxX a == maxX b /\ maxY a == maxY b /\
  width a == width b /\ height a == height b.

Definition Partial_equiv (a b : PartialShape) : Prop :=
  Forall2 Point_equiv (new_points a) (new_points b) /\
  vec_equiv (new_point a) (new_point b).

(** ** Identity of cache keys *)

Definition Q_eq_dec (a b : Q) : {a = b} + {a <> b}.
Proof. decide equality; [apply Pos.eq_dec | apply Z.eq_dec]. Defined.

Definition Point_eq_dec (a b : Point) : {a = b} + {a <> b}.
Proof.
  decide equality; try apply Q_eq_dec.
  decide equality; apply Q_eq_dec.
Defined.

Definition Points_eq_dec : forall a b : list Point, {a = b} + {a <> b} :=
  list_eq_dec Point_eq_dec.

Definition DrawStyle_eq_dec (a b : DrawStyle) : {a = b} + {a <> b}.
Proof.
  decide equality; try apply Q_eq_dec; try apply bool_dec; apply string_dec.
Defined.

Definition DrawShape_eq_dec (a b : DrawShape) : {a = b} + {a <> b}.
Proof.
  decide equality; try apply Q_eq_dec; try apply bool_dec;
    try apply string_dec; try apply DrawStyle_eq_dec;
    try apply Points_eq_dec.
  decide equality; apply Q_eq_dec.
Defined.

(** ** Caches, errors and the method monad *)

Definition WeakMap (K V : Type) : Type := list (K * V).

Fixpoint wm_get {K V : Type} (eq_dec : forall a b : K, {a = b} + {a <> b})
         (m : WeakMap K V) (k : K) : option V :=
  match m with
  | [] => None
  | (k', v) :: rest => if eq_dec k k' then Some v else wm_get eq_dec rest k
  end.

Definition wm_set {K V : Type} (m : WeakMap K V) (k : K) (v : V) : WeakMap K V :=
  (k, v) :: m.

(** The instance fields of [Draw], and [boundsCache] of its base class. *)
Record Caches : Type := mkCaches {
  pointsBoundsCache : WeakMap (list Point) TLBounds;
  rotatedCache : WeakMap DrawShape (list vec);
  drawPathCache : WeakMap (list Point) string;
  simplePathCache : WeakMap (list Point) string;
  strokeCache : WeakMap DrawShape (list vec);
  boundsCache : WeakMap DrawShape TLBounds
}.

Definition emptyCaches : Caches := mkCaches [] [] [] [] [] [].

Inductive error : Type :=
| EmptyInput   (* bounds requested for an empty point set *)
| TypeError.   (* property read on [undefined] *)

Inductive result (A : Type) : Type :=
| Ok (a : A)
| Throw (e : error).
Arguments Ok {A} a.
Arguments Throw {A} e.

Definition M (A : Type) : Type := Caches -> result A * Caches.

Definition ret {A : Type} (a : A) : M A := fun c => (Ok a, c).

Definition bind {A B : Type} (m : M A) (k : A -> M B) : M B :=
  fun c => match m c with
           | (Ok a, c') => k a c'
           | (Throw e, c') => (Throw e, c')
           end.

Definition lift {A : Type} (r : result A) : M A := fun c => (r, c).

Definition run {A : Type} (m : M A) (c : Caches) : result A := fst (m c).

Declare Scope method_scope.
Delimit Scope method_scope with method.
Notation "x <- m ;; k" := (bind m (fun x => k))
  (at level 61, m at next level, right associativity) : method_scope.
Notation "m ;;; k" := (bind m (fun _ => k))
  (at level 61, right associativity) : method_scope.

Definition result_map {A B : Type} (f : A -> B) (r : result A) : result B :=
  match r with
  | Ok a => Ok (f a)
  | Throw e => Throw e
  end.

(** ** The environment: Math, number formatting, perfect-freehand *)

(** [Math.sin] and [Math.cos] of the host. *)
Class JSMath : Type := {
  sin : Q -> Q;
  cos : Q -> Q
}.

(** ** [Vec] of @tldraw/core *)

Module Vec.

(** Modelled from the spec: the vector primitives of @tldraw/core are not
    part of the sources; section 4.1 lists "vector add/subtract/negate". *)
Definition add (a b : vec) : vec := (fst a + fst b, snd a + snd b).

(** Modelled from the spec: see [add]. *)
Definition sub (a b : vec) : vec := (fst a - fst b, snd a - snd b).

(** Modelled from the spec: see [add]. *)
Definition neg (a : vec) : vec := (- fst a, - snd a).

(** Modelled from the spec: [Vec.rotWith] is not part of the sources;
    "rotate a point about a pivot by an angle", "standard
    counter-clockwise convention around the pivot". *)
Definition rotWith `{JSMath} (a c : vec) (r : Q) : vec :=
  let dx := fst a - fst c in
  let dy := snd a - snd c in
  (dx * cos r - dy * sin r + fst c, dx * sin r + dy * cos r + snd c).

End Vec.

(** ** [Utils] of @tldraw/core *)

Module Utils.

(** Modelled from the spec: the envelope that [getBoundsFromPoints] takes,
    for a non-empty point set, by running minima and maxima; bounds are
    normalized with [width = maxX - minX] and [height = maxY - minY]. *)
Definition envelope (p : Point) (rest : list Point) : TLBounds :=
  let x0 := fold_left (fun m q => Qmin (px q) m) rest (px p) in
  let y0 := fold_left (fun m q => Qmin (py q) m) rest (py p) in
  let x1 := fold_left (fun m q => Qmax (px q) m) rest (px p) in
  let y1 := fold_left (fun m q => Qmax (py q) m) rest (py p) in
  mkBounds x0 y0 x1 y1 (x1 - x0) (y1 - y0).

(** Modelled from the spec: [Utils.getBoundsFromPoints] is not part of the
    sources.  "compute bounds from a point set (optionally pre-rotating
    each point by a given angle about the set's own center before taking
    the envelope)"; "bounds-from-points over an empty sequence is an error
    condition (fails with an empty-input error)"; bounds are normalized
    with [width = maxX - minX] and [height = maxY - minY].  The rotation
    argument is optional and defaults to 0, which leaves the points as
    they are. *)
Definition getBoundsFromPoints `{JSMath} (pts : list Point) (rotation : Q)
  : result TLBounds :=
  match pts with
  | [] => Throw EmptyInput
  | p :: rest =>
      let b := envelope p rest in
      if Qeq_bool rotation 0 then Ok b
      else
        let c := ((minX b + maxX b) / 2, (minY b + maxY b) / 2) in
        match map (fun q => let v := Vec.rotWith (xy q) c rotation in
                            mkPoint (fst v) (snd v) None) pts with
        | [] => Throw EmptyInput
        | p' :: rest' => Ok (envelope p' rest')
        end
  end.

(** Modelled from the spec: [Utils.translateBounds] is not part of the
    sources; "translate a bounds record by an offset". *)
Definition translateBounds (b : TLBounds) (delta : vec) : TLBounds :=
  mkBounds (minX b + fst delta) (minY b + snd delta)
           (maxX b + fst delta) (maxY b + snd delta)
           (width b) (height b).

(** Modelled from the spec: [Utils.boundsContain] is not part of the
    sources; "test whether bounds A fully contains bounds B". *)
Definition boundsContain (a b : TLBounds) : bool :=
  Qltb (minX a) (minX b) && Qltb (minY a) (minY b) &&
  Qltb (maxY b) (maxY a) && Qltb (maxX b) (maxX a).

(** Modelled from the spec: [Utils.getBoundsCenter] is not part of the
    sources; "compute the center point of a bounds record". *)
Definition getBoundsCenter (b : TLBounds) : vec :=
  (minX b + width b / 2, minY b + height b / 2).

(** Modelled from the spec: [Utils.getFromCache] is not part of the
    sources; "identical key => return previously computed value without
    recomputation; changed key => recompute and store fresh".  The
    computation is pure, so its outcome is passed in place of the thunk;
    an exception raised by it leaves the cache as it was. *)
Definition getFromCache {K V : Type}
           (eq_dec : forall a b : K, {a = b} + {a <> b})
           (get : Caches -> WeakMap K V)
           (set : WeakMap K V -> Caches -> Caches)
           (item : K) (getNext : result V) : M V :=
  fun c =>
    match wm_get eq_dec (get c) item with
    | Some v => (Ok v, c)
    | None =>
        match getNext with
        | Ok v => (Ok v, set (wm_set (get c) item v) c)
        | Throw e => (Throw e, c)
        end
    end.

End Utils.

(** Field updates of the cache record. *)
Definition set_pointsBoundsCache (m : WeakMap (list Point) TLBounds) (c : Caches) :=
  mkCaches m (rotatedCache c) (drawPathCache c) (simplePathCache c)
           (strokeCache c) (boundsCache c).
Definition set_rotatedCache (m : WeakMap DrawShape (list vec)) (c : Caches) :=
  mkCaches (pointsBoundsCache c) m (drawPathCache c) (simplePathCache c)
           (strokeCache c) (boundsCache c).
Definition set_simplePathCache (m : WeakMap (list Point) string) (c : Caches) :=
  mkCaches (pointsBoundsCache c) (rotatedCache c) (drawPathCache c) m
           (strokeCache c) (boundsCache c).
Definition set_strokeCache (m : WeakMap DrawShape (list vec)) (c : Caches) :=
  mkCaches (pointsBoundsCache c) (rotatedCache c) (drawPathCache c)
           (simplePathCache c) m (boundsCache c).
Definition set_boundsCache (m : WeakMap DrawShape TLBounds) (c : Caches) :=
  mkCaches (pointsBoundsCache c) (rotatedCache c) (drawPathCache c)
           (simplePathCache c) (strokeCache c) m.

(** ** [Intersect] of @tldraw/core *)

Module Intersect.

(** Modelled from the spec: an intersection entity of the "list of
    intersection entities found", a label and the points that locate it. *)
Record TLIntersection : Type := mkIntersection {
  message : string;
  located : list vec
}.

(** Modelled from the spec: part of the segment test below; the side of
    the line from [o] to [a] on which [b] lies, by the sign of the cross
    product. *)
Definition cross (o a b : vec) : Q :=
  (fst a - fst o) * (snd b - snd o) - (snd a - snd o) * (fst b - fst o).

(** Modelled from the spec: part of the segment test below; strictly
    opposite signs. *)
Definition opposite (d e : Q) : bool :=
  (Qltb d 0 && Qltb 0 e) || (Qltb e 0 && Qltb 0 d).

(** Modelled from the spec: part of the segment test below; [p], known to
    be collinear with [a] and [b], lies between them. *)
Definition within (a b p : vec) : bool :=
  Qle_bool (Qmin (fst a) (fst b)) (fst p) &&
  Qle_bool (fst p) (Qmax (fst a) (fst b)) &&
  Qle_bool (Qmin (snd a) (snd b)) (snd p) &&
  Qle_bool (snd p) (Qmax (snd a) (snd b)).

(** Modelled from the spec: the segment test of @tldraw/core is not part
    of the sources; segments that cross or merely touch intersect
    ("touching (zero-area overlap) counts as intersection"). *)
Definition segmentsMeet (a1 a2 b1 b2 : vec) : bool :=
  let d1 := cross b1 b2 a1 in
  let d2 := cross b1 b2 a2 in
  let d3 := cross a1 a2 b1 in
  let d4 := cross a1 a2 b2 in
  (opposite d1 d2 && opposite d3 d4) ||
  (Qeq_bool d1 0 && within b1 b2 a1) ||
  (Qeq_bool d2 0 && within b1 b2 a2) ||
  (Qeq_bool d3 0 && within a1 a2 b1) ||
  (Qeq_bool d4 0 && within a1 a2 b2).

(** Modelled from the spec: "the box's four edges", clockwise from the
    top-left corner. *)
Definition edges (b : TLBounds) : list (vec * vec) :=
  [ ((minX b, minY b), (maxX b, minY b));
    ((maxX b, minY b), (maxX b, maxY b));
    ((maxX b, maxY b), (minX b, maxY b));
    ((minX b, maxY b), (minX b, minY b)) ].

(** Modelled from the spec: "each polyline segment", the consecutive pairs
    of points. *)
Fixpoint segments (pts : list vec) : list (vec * vec) :=
  match pts with
  | a :: ((b :: _) as rest) => (a, b) :: segments rest
  | _ => []
  end.

(** Modelled from the spec: one segment "tested against the box's four
    edges". *)
Definition segmentBounds (s : vec * vec) (b : TLBounds) : list TLIntersection :=
  flat_map (fun e =>
              if segmentsMeet (fst s) (snd s) (fst e) (snd e)
              then [mkIntersection "intersection" [fst s; snd s; fst e; snd e]]
              else [])
           (edges b).

Module bounds.

(** Modelled from the spec: [Intersect.bounds.bounds] is not part of the
    sources; "box vs box: standard interval-overlap test on both axes",
    touching counts. *)
Definition bounds (a b : TLBounds) : list TLIntersection :=
  if Qle_bool (minX a) (maxX b) && Qle_bool (minX b) (maxX a) &&
     Qle_bool (minY a) (maxY b) && Qle_bool (minY b) (maxY a)
  then [mkIntersection "intersection"
          [(Qmax (minX a) (minX b), Qmax (minY a) (minY b));
           (Qmin (maxX a) (maxX b), Qmin (maxY a) (maxY b))]]
  else [].

(** Modelled from the spec: [Intersect.bounds.polyline] is not part of
    the sources; "box vs polyline: each polyline segment is tested
    against the box's four edges; detects overlap even when all polyline
    vertices are outside the box but a segment crosses it". *)
Definition polyline (b : TLBounds) (pts : list vec) : list TLIntersection :=
  flat_map (fun s => segmentBounds s b) (segments pts).

End bounds.

Module polyline.

(** Modelled from the spec: [Intersect.polyline.bounds] is not part of
    the sources; "polyline vs box: symmetric form, used when the box has
    already been translated into the polyline's local frame". *)
Definition bounds (pts : list vec) (b : TLBounds) : list TLIntersection :=
  bounds.polyline b pts.

End polyline.

End Intersect.

(** [xs.length > 0] *)
Definition nonEmpty {A : Type} (xs : list A) : bool :=
  match xs with
  | [] => false
  | _ :: _ => true
  end.

(** ** perfect-freehand and number formatting *)

(** The options object handed to [getStroke]. *)
Record StrokeEnd : Type := mkStrokeEnd {
  taper : Q;
  cap : bool
}.

Record StrokeOptions : Type := mkStrokeOptions {
  opt_size : Q;
  opt_thinning : Q;
  opt_streamline : Q;
  opt_smoothing : Q;
  opt_end : StrokeEnd;
  opt_start : StrokeEnd;
  simulatePressure : bool;
  last : bool
}.

(** An element of the result of [getStrokePoints]; the source reads only its
    [point]. *)
Record StrokePoint : Type := mkStrokePoint {
  sp_point : vec;
  sp_pressure : Q
}.

(** The outline generator of the perfect-freehand package.  Its body is not
    part of the sources and the spec describes it at design level only, so
    the development is parametric in it. *)
Class PerfectFreehand : Type := {
  getStroke : list Point -> StrokeOptions -> list vec;
  getStrokePoints : list Point -> list StrokePoint
}.

(** [Utils.getSvgPathFromStroke] of @tldraw/core: "converted by a separate
    path-building step into a drawing command sequence". *)
Class SvgPathBuilder : Type := {
  getSvgPathFromStroke : list vec -> string
}.

(** Number-to-string conversions of the host: [String(n)] as used by template
    literals and [Array.prototype.join], [n.toFixed(2)], and the
    [replaceAll] of [getSolidStrokePath], whose fixed pattern cuts every
    decimal expansion in the joined path after its second digit. *)
Class JSFormat : Type := {
  numberToString : Q -> string;
  toFixed2 : Q -> string;
  truncateDecimals : string -> string
}.

(** ** The [Draw] class *)

Section Draw.

Context `{JSMath} `{PerfectFreehand} `{SvgPathBuilder} `{JSFormat}.

Local Open Scope method_scope.
Local Open Scope string_scope.

(** [defaultProps] *)
Definition defaultProps : DrawShape :=
  mkShape "id" "draw" "Draw" "page" 1 (0, 0) [mkPoint 0 0 (Some (1 # 2))] 0 false
          (mkStyle 8 0 (3 # 4) (1 # 2) (1 # 2) 0 0 true true true "#000").

(** [getBounds] *)
Definition getBounds (shape : DrawShape) : M TLBounds :=
  b <- Utils.getFromCache Points_eq_dec pointsBoundsCache set_pointsBoundsCache
         (points shape) (Utils.getBoundsFromPoints (points shape) 0) ;;
  ret (Utils.translateBounds b (point shape)).

(** [getRotatedBounds] *)
Definition getRotatedBounds (shape : DrawShape) : M TLBounds :=
  b <- lift (Utils.getBoundsFromPoints (points shape) (rotation shape)) ;;
  ret (Utils.translateBounds b (point shape)).

(** [getCenter] *)
Definition getCenter (shape : DrawShape) : M vec :=
  b <- getBounds shape ;;
  ret (Utils.getBoundsCenter b).

(** [hitTest]: declared without parameters; the shape contract calls it
    with the shape and the query point. *)
Definition hitTest (shape : DrawShape) (query : vec) : bool := true.

(** [hitTestBounds] *)
Definition hitTestBounds (shape : DrawShape) (brushBounds : TLBounds) : M bool :=
  if Qeq_bool (rotation shape) 0 then
    (* Test axis-aligned shape *)
    bounds <- getBounds shape ;;
    ret (Utils.boundsContain brushBounds bounds ||
         ((Utils.boundsContain bounds brushBounds ||
           nonEmpty (Intersect.bounds.bounds bounds brushBounds)) &&
          nonEmpty (Intersect.polyline.bounds
                      (map xy (points shape))
                      (Utils.translateBounds brushBounds (Vec.neg (point shape))))))
  else
    (* Test rotated shape *)
    rBounds <- getRotatedBounds shape ;;
    rotatedBounds <-
      Utils.getFromCache DrawShape_eq_dec rotatedCache set_rotatedCache shape
        (result_map
           (fun b => let c := Utils.getBoundsCenter b in
                     map (fun pt => Vec.rotWith (xy pt) c (rotation shape))
                         (points shape))
           (Utils.getBoundsFromPoints (points shape) 0)) ;;
    ret (Utils.boundsContain brushBounds rBounds ||
         nonEmpty (Intersect.bounds.polyline
                     (Utils.translateBounds brushBounds (Vec.neg (point shape)))
                     rotatedBounds)).

(** [transform] *)
Definition transform (shape : DrawShape) (bounds : TLBounds)
           (info : TLTransformInfo) : M PartialShape :=
  let initialShape := initialShape info in
  let scaleX := scaleX info in
  let scaleY := scaleY info in
  initialShapeBounds <-
    Utils.getFromCache DrawShape_eq_dec boundsCache set_boundsCache initialShape
      (Utils.getBoundsFromPoints (points initialShape) 0) ;;
  let points' :=
    map (fun p =>
           mkPoint
             (width bounds *
              (if Qltb scaleX 0
               then 1 - px p / width initialShapeBounds
               else px p / width initialShapeBounds))
             (height bounds *
              (if Qltb scaleY 0
               then 1 - py p / height initialShapeBounds
               else py p / height initialShapeBounds))
             (pressure p))
        (points initialShape) in
  newBounds <- lift (Utils.getBoundsFromPoints (points shape) 0) ;;
  let point := Vec.sub (minX bounds, minY bounds) (minX newBounds, minY newBounds) in
  ret (mkPartial points' point).

(** [transformSingle] *)
Definition transformSingle (shape : DrawShape) (bounds : TLBounds)
           (info : TLTransformInfo) : M PartialShape :=
  transform shape bounds info.

(** [onSessionComplete] *)
Definition onSessionComplete (shape : DrawShape) : M PartialShape :=
  bounds <- getBounds shape ;;
  let '(x1, y1) := Vec.sub (minX bounds, minY bounds) (point shape) in
  ret (mkPartial
         (map (fun p => mkPoint (px p - x1) (py p - y1) (pressure p))
              (points shape))
         (Vec.add (point shape) (x1, y1))).

(** The [strokeWidth] prop shared by both elements of [render]:
    [fill ? strokeWidth || 1 : strokeWidth]. *)
Definition strokeWidthProp (fill : string) (strokeWidth : Q) : Q :=
  if String.eqb fill "" then strokeWidth
  else if Qeq_bool strokeWidth 0 then 1 else strokeWidth.

(** The two elements that [render] can return. *)
Definition circleElement (st : DrawStyle) (fill : string) : JSXElement :=
  mkElement "circle"
    [ ("r", PNum (size st * (8 # 25)));
      ("fill", PStr fill);
      ("stroke", PStr (color st));
      ("strokeWidth", PNum (strokeWidthProp fill (strokeWidth st)));
      ("pointerEvents", PStr "all") ].

Definition pathElement (st : DrawStyle) (fill : string) (d : string) : JSXElement :=
  mkElement "path"
    [ ("d", PStr d);
      ("fill", PStr fill);
      ("stroke", PStr (color st));
      ("strokeWidth", PNum (strokeWidthProp fill (strokeWidth st)));
      ("strokeLinejoin", PStr "round");
      ("strokeLinecap", PStr "round");
      ("pointerEvents", PStr "all") ].

(** The options that [render] hands to [getStroke]. *)
Definition strokeOptions (shape : DrawShape) (simulatePressure : bool) : StrokeOptions :=
  let st := style shape in
  mkStrokeOptions (size st) (thinning st) (streamline st) (smoothing st)
                  (mkStrokeEnd (taperEnd st) (capEnd st))
                  (mkStrokeEnd (taperStart st) (capStart st))
                  simulatePressure (isDone shape).

(** [shape.points[1][2] === 0.5] *)
Definition secondPressureIsHalf (p1 : Point) : bool :=
  match pressure p1 with
  | Some r => Qeq_bool r (1 # 2)
  | None => false
  end.

(** [render] *)
Definition render (shape : DrawShape) (info : TLRenderInfo) : M JSXElement :=
  let st := style shape in
  let drawPathData := "" in
  let fill := if isFilled st then color st else "none" in
  (* For very short lines, draw a point instead of a line *)
  bounds <- getBounds shape ;;
  if ((List.length (points shape) <=? 2)%nat ||
      (Qltb (width bounds) (size st / 2) && Qltb (height bounds) (size st / 2)))
     && isDone shape
  then ret (circleElement st fill)
  else
    drawPathData <-
      (if (2 <? List.length (points shape))%nat then
         match nth_error (points shape) 1 with
         | None => lift (Throw TypeError)
         | Some p1 =>
             let simulatePressure := secondPressureIsHalf p1 in
             let stroke := getStroke (skipn 2 (points shape))
                                     (strokeOptions shape simulatePressure) in
             (fun c => (Ok tt, set_strokeCache (wm_set (strokeCache c) shape stroke) c)) ;;;
             ret (getSvgPathFromStroke stroke)
         end
       else ret drawPathData) ;;
    ret (pathElement st fill drawPathData).

(** The [reduce] callback of [getSolidStrokePath], run over the elements
    of [arr] from index [i]; numbers pushed as such are shown as [join]
    prints them. *)
Fixpoint reducePath (arr : list vec) (len : nat) (i : nat) (rest : list vec)
         (acc : list string) : result (list string) :=
  match rest with
  | [] => Ok acc
  | (x0, y0) :: rest' =>
      if (i =? len - 1)%nat then
        reducePath arr len (S i) rest'
                   (acc ++ ["L"; numberToString x0; numberToString y0])
      else
        match nth_error arr (i + 1) with
        | None => Throw TypeError
        | Some (x1, y1) =>
            reducePath arr len (S i) rest'
                       (acc ++ [toFixed2 x0; toFixed2 y0;
                                toFixed2 ((x0 + x1) / 2);
                                toFixed2 ((y0 + y1) / 2)])
        end
  end.

(** [getSolidStrokePath] *)
Definition getSolidStrokePath (shape : DrawShape) : result string :=
  let points := points shape in
  let len := List.length points in
  if (len =? 0)%nat then Ok "M 0 0 L 0 0"
  else if (len <? 3)%nat then
    match nth_error points 0 with
    | None => Throw TypeError
    | Some p0 =>
        Ok ("M " ++ numberToString (px p0) ++ " " ++ numberToString (py p0))
    end
  else
    let points := map sp_point (getStrokePoints points) in
    let len := List.length points in
    match nth_error points 0 with
    | None => Throw TypeError
    | Some (x, y) =>
        result_map
          (fun d => truncateDecimals (String.concat " " d))
          (reducePath points len 0 points
                      ["M"; numberToString x; numberToString y; "Q"])
    end.

(** [renderIndicator] *)
Definition renderIndicator (shape : DrawShape) : M JSXElement :=
  path <- Utils.getFromCache Points_eq_dec simplePathCache set_simplePathCache
            (points shape) (getSolidStrokePath shape) ;;
  ret (mkElement "path" [("d", PStr path)]).

End Draw.

(** ** Specification vocabulary *)

(** [m] is the least (greatest) value of [f] over [pts]. *)
Definition lowest (f : Point -> Q) (pts : list Point) (m : Q) : Prop :=
  Forall (fun p => m <= f p) pts /\ Exists (fun p => f p == m) pts.

Definition highest (f : Point -> Q) (pts : list Point) (m : Q) : Prop :=
  Forall (fun p => f p <= m) pts /\ Exists (fun p => f p == m) pts.

(** [b] is the axis-aligned bounding box of [pts]. *)
Definition is_envelope (pts : list Point) (b : TLBounds) : Prop :=
  lowest px pts (minX b) /\ lowest py pts (minY b) /\
  highest px pts (maxX b) /\ highest py pts (maxY b) /\
  width b == maxX b - minX b /\ height b == maxY b - minY b.

(** Box [a] fully contains box [b]. *)
Definition contains (a b : TLBounds) : Prop :=
  minX a < minX b /\ minY a < minY b /\ maxY b < maxY a /\ maxX b < maxX a.

(** The boxes overlap on both axes (touching included). *)
Definition overlap (a b : TLBounds) : Prop :=
  minX a <= maxX b /\ minX b <= maxX a /\ minY a <= maxY b /\ minY b <= maxY a.

(** [p] lies on the segment from [a] to [b], end points included. *)
Definition on_segment (a b p : vec) : Prop :=
  exists t, 0 <= t /\ t <= 1 /\
            fst p == fst a + t * (fst b - fst a) /\
            snd p == snd a + t * (snd b - snd a).

(** The two segments have a point in common. *)
Definition share_point (a1 a2 b1 b2 : vec) : Prop :=
  exists p, on_segment a1 a2 p /\ on_segment b1 b2 p.

(** [x] lies between [a] and [b], whichever of the two is the larger. *)
Definition between (a x b : Q) : Prop :=
  (a <= x /\ x <= b) \/ (b <= x /\ x <= a).

(** [p] lies on the boundary of the box [b]: on one of its two vertical
    sides or on one of its two horizontal sides. *)
Definition on_boundary (b : TLBounds) (p : vec) : Prop :=
  ((fst p == minX b \/ fst p == maxX b) /\ between (minY b) (snd p) (maxY b)) \/
  ((snd p == minY b \/ snd p == maxY b) /\ between (minX b) (fst p) (maxX b)).

(** [a] and [c] are two consecutive points of the polyline [pts]. *)
Definition consecutive (pts : list vec) (a c : vec) : Prop :=
  exists i, nth_error pts i = Some a /\ nth_error pts (S i) = Some c.

(** Some segment of the polyline, between two consecutive points, has a
    point on the boundary of the box. *)
Definition crosses (pts : list vec) (b : TLBounds) : Prop :=
  exists a c p, consecutive pts a c /\ on_segment a c p /\ on_boundary b p.

(** How the points of a shape and of its re-origined copy are related. *)
Definition shifted_by (d : vec) (p q : Point) : Prop :=
  px q == px p - fst d /\ py q == py p - snd d /\ pressure q = pressure p.

(** The path that [getSolidStrokePath] gives for fewer than three points. *)
Definition trivialPath `{JSFormat} (pts : list Point) : string :=
  match pts with
  | [] => "M 0 0 L 0 0"%string
  | p :: _ => ("M " ++ numberToString (px p) ++ " " ++ numberToString (py p))%string
  end.

(** The tokens of the indicator path after its head [M x0 y0 Q]: every
    point but the last contributes its coordinates and the midpoint to its
    successor, the last one a line-to. *)
Fixpoint pathTokens `{JSFormat} (pts : list vec) : list string :=
  match pts with
  | [] => []
  | (x0, y0) :: rest =>
      match rest with
      | [] => ["L"%string; numberToString x0; numberToString y0]
      | (x1, y1) :: _ =>
          [toFixed2 x0; toFixed2 y0;
           toFixed2 ((x0 + x1) / 2); toFixed2 ((y0 + y1) / 2)] ++ pathTokens rest
      end
  end.


Section Validity.

Context `{JSMath}.

(** Every entry of the two bounds caches is the value its computation
    yields for its key. *)
Definition caches_valid (c : Caches) : Prop :=
  (forall pts b,
      wm_get Points_eq_dec (pointsBoundsCache c) pts = Some b ->
      Utils.getBoundsFromPoints pts 0 = Ok b) /\
  (forall sh b,
      wm_get DrawShape_eq_dec (boundsCache c) sh = Some b ->
      Utils.getBoundsFromPoints (points sh) 0 = Ok b).

(** The first statement of the spec about [hitTestBounds], word for word:
    true iff the query box intersects, contains or is contained by the
    shape's bounds and, when neither box contains the other, a stroke
    segment crosses the query box. *)
Definition hitTestBounds_as_specified (shape : DrawShape) (brush : TLBounds)
           (c : Caches) : Prop :=
  exists b,
    run (getBounds shape) c = Ok b /\
    (run (hitTestBounds shape brush) c = Ok true <->
     (overlap b brush \/ contains brush b \/ contains b brush) /\
     (~ contains brush b -> ~ contains b brush ->
      crosses (map xy (points shape))
              (Utils.translateBounds brush (Vec.neg (point shape))))).



(** The local bounds of [pts] exist and have their top-left corner at the
    local origin, as [onSessionComplete] leaves them. *)
Definition at_origin (pts : list Point) : Prop :=
  exists b,
    Utils.getBoundsFromPoints pts 0 = Ok b /\ minX b == 0 /\ minY b == 0.


End Validity.

Section RenderClaims.

Context `{JSMath} `{PerfectFreehand} `{SvgPathBuilder} `{JSFormat}.

(** Every entry of the indicator-path cache is the path of its key. *)
Definition indicator_cache_valid (c : Caches) : Prop :=
  forall sh d,
    wm_get Points_eq_dec (simplePathCache c) (points sh) = Some d ->
    getSolidStrokePath sh = Ok d.

(** [render] answers with the dot. *)
Definition renders_dot (shape : DrawShape) (info : TLRenderInfo) (c : Caches) : Prop :=
  exists e,
    run (render shape info) c = Ok e /\
    tag e = "circle"%string /\
    In ("r"%string, PNum (size (style shape) * (8 # 25))) (props e).

(** The options that an outline is asked for are those of the style, with
    the [last] flag telling whether the stroke is finished. *)
Definition options_of_style (shape : DrawShape) (o : StrokeOptions) : Prop :=
  opt_size o = size (style shape) /\
  opt_thinning o = thinning (style shape) /\
  opt_streamline o = streamline (style shape) /\
  opt_smoothing o = smoothing (style shape) /\
  taper (opt_end o) = taperEnd (style shape) /\
  cap (opt_end o) = capEnd (style shape) /\
  taper (opt_start o) = taperStart (style shape) /\
  cap (opt_start o) = capStart (style shape) /\
  last o = isDone shape.

(** [render] answers with the path of the outline that [getStroke] builds
    from [shape.points.slice(2)] under options [o] taken from the style,
    whose [simulatePressure] flag is set exactly when the third component
    of the second point is 0.5; the outline is stored in [strokeCache]. *)
Definition renders_outline (shape : DrawShape) (info : TLRenderInfo) (c : Caches) : Prop :=
  exists p1 e o,
    nth_error (points shape) 1 = Some p1 /\
    run (render shape info) c = Ok e /\
    tag e = "path"%string /\
    In ("d"%string,
        PStr (getSvgPathFromStroke (getStroke (skipn 2 (points shape)) o)))
       (props e) /\
    (simulatePressure o = true <-> opt_equiv (pressure p1) (Some (1 # 2))) /\
    options_of_style shape o /\
    wm_get DrawShape_eq_dec (strokeCache (snd (render shape info c))) shape =
    Some (getStroke (skipn 2 (points shape)) o).

End RenderClaims.

(** ** Concrete inputs *)

(** Stand-ins for the environment, used to run the methods on concrete
    inputs.  [Math.sin] and [Math.cos] are cut-off power series; the outline
    generator returns the centerline; numbers print as fractions. *)
Definition sampleMath : JSMath :=
  {| sin := fun a => a - a * a * a / 6;
     cos := fun a => 1 - a * a / 2 |}.

Definition printQ (q : Q) : string :=
  (NilEmpty.string_of_int (Z.to_int (Qnum q)) ++
   (if Pos.eqb (Qden q) 1 then ""
    else "/" ++ NilEmpty.string_of_uint (Pos.to_uint (Qden q))))%string.

Definition sampleFormat : JSFormat :=
  {| numberToString := printQ;
     toFixed2 := printQ;
     truncateDecimals := fun s => s |}.

Definition sampleFreehand : PerfectFreehand :=
  {| getStroke := fun pts _ => map xy pts;
     getStrokePoints := fun pts => map (fun p => mkStrokePoint (xy p) (1 # 2)) pts |}.

Definition sampleSvg : SvgPathBuilder :=
  {| getSvgPathFromStroke :=
       fun stroke =>
         String.concat " " (map (fun v => (printQ (fst v) ++ "," ++ printQ (snd v))%string)
                                stroke) |}.

Definition half : option Q := Some (1 # 2).

Definition shapeWith (pt : vec) (pts : list Point) (done : bool) : DrawShape :=
  mkShape "id" "draw" "Draw" "page" 1 pt pts 0 done
          (mkStyle 8 0 (3 # 4) (1 # 2) (1 # 2) 0 0 true true true "#000").

(** The stroke of the spec's end-to-end example. *)
Definition cornerPoints : list Point :=
  [mkPoint 0 0 half; mkPoint 10 0 half; mkPoint 10 10 half].

Definition cornerShape : DrawShape := shapeWith (3, 4) cornerPoints true.

(** A query box inside the bounds of the corner stroke that no segment
    reaches, nor would the segment from the last point back to the first:
    in the local frame of the stroke it is the box from (6, 2) to (8, 4). *)
Definition innerBrush : TLBounds := mkBounds 9 6 11 8 2 2.

Definition squareTarget : TLBounds := mkBounds 0 0 20 20 20 20.

(** A re-origined diagonal stroke. *)
Definition diagonalShape : DrawShape :=
  shapeWith (7, 7) [mkPoint 0 0 half; mkPoint 10 10 half] true.

(** A stroke still being drawn, away from its local origin. *)
Definition draftShape : DrawShape :=
  shapeWith (1, 2) [mkPoint 3 8 half; mkPoint 5 6 half; mkPoint 4 9 half] false.

(** A finished stroke without points. *)
Definition emptyShape : DrawShape := shapeWith (0, 0) [] true.

(** A finished stroke of three points, much smaller than its thickness. *)
Definition tinyShape : DrawShape :=
  shapeWith (0, 0) [mkPoint 0 0 half; mkPoint 1 0 half; mkPoint 1 1 half] true.

(** A finished stroke of two points (a tap). *)
Definition tapShape : DrawShape :=
  shapeWith (2, 2) [mkPoint 0 0 half; mkPoint 0 0 half] true.

(** The corner stroke, turned by half a radian. *)
Definition tiltedShape : DrawShape :=
  mkShape "id" "draw" "Draw" "page" 1 (3, 4) cornerPoints (1 # 2) true
          (mkStyle 8 0 (3 # 4) (1 # 2) (1 # 2) 0 0 true true true "#000").

Definition lightMode : TLRenderInfo := mkRenderInfo false.

(** The tag of the element that a run produced, if it produced one. *)
Definition tag_of_result (r : result JSXElement) : option string :=
  match r with
  | Ok e => Some (tag e)
  | Throw _ => None
  end.

(** ** Calls on a [Draw] instance *)

Section Calls.

Context `{JSMath} `{PerfectFreehand} `{SvgPathBuilder} `{JSFormat}.

(** The computation that [hitTestBounds] hands to [getFromCache] for
    [rotatedCache]: the points turned about the center of their bounds. *)
Definition rotatedPoints (shape : DrawShape) : result (list vec) :=
  result_map
    (fun b => let c := Utils.getBoundsCenter b in
              map (fun pt => Vec.rotWith (xy pt) c (rotation shape))
                  (points shape))
    (Utils.getBoundsFromPoints (points shape) 0).

(** Every entry of the rotated-points cache is what its shape yields. *)
Definition rotated_cache_valid (c : Caches) : Prop :=
  forall sh r,
    wm_get DrawShape_eq_dec (rotatedCache c) sh = Some r ->
    rotatedPoints sh = Ok r.

(** All the caches that are ever read hold what their keys yield. *)
Definition all_caches_valid (c : Caches) : Prop :=
  caches_valid c /\ indicator_cache_valid c /\ rotated_cache_valid c.

(** A call of a method of the class, with its arguments. *)
Inductive Call : Type :=
| CallGetBounds (shape : DrawShape)
| CallGetRotatedBounds (shape : DrawShape)
| CallGetCenter (shape : DrawShape)
| CallHitTestBounds (shape : DrawShape) (brushBounds : TLBounds)
| CallTransform (shape : DrawShape) (bounds : TLBounds) (info : TLTransformInfo)
| CallTransformSingle (shape : DrawShape) (bounds : TLBounds) (info : TLTransformInfo)
| CallOnSessionComplete (shape : DrawShape)
| CallRender (shape : DrawShape) (info : TLRenderInfo)
| CallRenderIndicator (shape : DrawShape).

(** What a call returns. *)
Inductive Answer : Type :=
| ABounds (b : TLBounds)
| AVec (v : vec)
| ABool (b : bool)
| APartial (p : PartialShape)
| AElement (e : JSXElement).

Definition answering {A : Type} (wrap : A -> Answer) (m : M A) : M Answer :=
  bind m (fun a => ret (wrap a)).

Definition perform (k : Call) : M Answer :=
  match k with
  | CallGetBounds shape => answering ABounds (getBounds shape)
  | CallGetRotatedBounds shape => answering ABounds (getRotatedBounds shape)
  | CallGetCenter shape => answering AVec (getCenter shape)
  | CallHitTestBounds shape brush => answering ABool (hitTestBounds shape brush)
  | CallTransform shape bounds info => answering APartial (transform shape bounds info)
  | CallTransformSingle shape bounds info =>
      answering APartial (transformSingle shape bounds info)
  | CallOnSessionComplete shape => answering APartial (onSessionComplete shape)
  | CallRender shape info => answering AElement (render shape info)
  | CallRenderIndicator shape => answering AElement (renderIndicator shape)
  end.

(** The caches after a sequence of calls, earliest first. *)
Definition afterAll (calls : list Call) (c : Caches) : Caches :=
  fold_left (fun c' k => snd (perform k c')) calls c.

(** A computation keeps an invariant of the caches. *)
Definition keeps (P : Caches -> Prop) {A : Type} (m : M A) : Prop :=
  forall c, P c -> P (snd (m c)).

(** Under the invariant a computation answers as on a fresh instance. *)
Definition stable (P : Caches -> Prop) {A : Type} (m : M A) : Prop :=
  forall c, P c -> run m c = run m emptyCaches.

End Calls.

(** ** The arithmetic of the methods in IEEE doubles *)

(** JavaScript numbers are binary64 floats.  What is proved over the exact
    rationals tells what the methods compute up to rounding; where rounding,
    a division by zero or NaN decides the outcome, the same methods are read
    here over the binary64 floats of the kernel, operation by operation, so
    that they can be run.  The caches are left out of this reading: they
    change no answer ([answers_ignore_history]). *)
Module Double.

Import PrimFloat.
#[local] Set Warnings "-inexact-float".
Local Open Scope float_scope.

Definition vec : Type := (float * float)%type.

(** An element of [shape.points]: [[x, y, pressure?]]. *)
Record Point : Type := mkPoint {
  px : float;
  py : float;
  pressure : option float
}.

(** [TLBounds] *)
Record TLBounds : Type := mkBounds {
  minX : float;
  minY : float;
  maxX : float;
  maxY : float;
  width : float;
  height : float
}.

(** [DrawShape], the two fields that [getBounds], [onSessionComplete] and
    [transform] read. *)
Record DrawShape : Type := mkShape {
  point : vec;
  points : list Point
}.

(** [Partial<DrawShape>] as returned by [transform] and
    [onSessionComplete]. *)
Record PartialShape : Type := mkPartial {
  new_points : list Point;
  new_point : vec
}.

(** [{ ...shape, ...partial }] *)
Definition applyPartial (shape : DrawShape) (p : PartialShape) : DrawShape :=
  mkShape (new_point p) (new_points p).

(** [TLTransformInfo<DrawShape>] (the fields that [transform] reads). *)
Record TLTransformInfo : Type := mkTransformInfo {
  initialShape : DrawShape;
  scaleX : float;
  scaleY : float
}.

(** Modelled from the spec: [Vec.add] of @tldraw/core is not part of the
    sources; "vector add/subtract/negate". *)
Definition add (a b : vec) : vec := (fst a + fst b, snd a + snd b).

(** Modelled from the spec: see [add]. *)
Definition sub (a b : vec) : vec := (fst a - fst b, snd a - snd b).

(** [Math.min] and [Math.max] of the host: NaN as soon as an argument is
    NaN. *)
Definition min (a b : float) : float :=
  if is_nan a || is_nan b then nan else if a <? b then a else b.

Definition max (a b : float) : float :=
  if is_nan a || is_nan b then nan else if b <? a then a else b.

(** Modelled from the spec: the envelope that [getBoundsFromPoints] takes,
    for a non-empty point set, by running minima and maxima, with
    [width = maxX - minX] and [height = maxY - minY]. *)
Definition envelope (p : Point) (rest : list Point) : TLBounds :=
  let x0 := fold_left (fun m q => min (px q) m) rest (px p) in
  let y0 := fold_left (fun m q => min (py q) m) rest (py p) in
  let x1 := fold_left (fun m q => max (px q) m) rest (px p) in
  let y1 := fold_left (fun m q => max (py q) m) rest (py p) in
  mkBounds x0 y0 x1 y1 (x1 - x0) (y1 - y0).

(** Modelled from the spec: [Utils.getBoundsFromPoints] is not part of the
    sources; called without a rotation, it takes the envelope of the points
    as they are, and "bounds-from-points over an empty sequence is an error
    condition". *)
Definition getBoundsFromPoints (pts : list Point) : result TLBounds :=
  match pts with
  | [] => Throw EmptyInput
  | p :: rest => Ok (envelope p rest)
  end.

(** Modelled from the spec: [Utils.translateBounds] is not part of the
    sources; "translate a bounds record by an offset". *)
Definition translateBounds (b : TLBounds) (delta : vec) : TLBounds :=
  mkBounds (minX b + fst delta) (minY b + snd delta)
           (maxX b + fst delta) (maxY b + snd delta)
           (width b) (height b).

(** [getBounds] *)
Definition getBounds (shape : DrawShape) : result TLBounds :=
  result_map (fun b => translateBounds b (point shape))
             (getBoundsFromPoints (points shape)).

(** [onSessionComplete] *)
Definition onSessionComplete (shape : DrawShape) : result PartialShape :=
  result_map
    (fun bounds =>
       let '(x1, y1) := sub (minX bounds, minY bounds) (point shape) in
       mkPartial
         (map (fun p => mkPoint (px p - x1) (py p - y1) (pressure p))
              (points shape))
         (add (point shape) (x1, y1)))
    (getBounds shape).

(** [transform] *)
Definition transform (shape : DrawShape) (bounds : TLBounds)
           (info : TLTransformInfo) : result PartialShape :=
  let initialShape := initialShape info in
  let scaleX := scaleX info in
  let scaleY := scaleY info in
  match getBoundsFromPoints (points initialShape) with
  | Throw e => Throw e
  | Ok initialShapeBounds =>
      let points' :=
        map (fun p =>
               mkPoint
                 (width bounds *
                  (if scaleX <? 0
                   then 1 - px p / width initialShapeBounds
                   else px p / width initialShapeBounds))
                 (height bounds *
                  (if scaleY <? 0
                   then 1 - py p / height initialShapeBounds
                   else py p / height initialShapeBounds))
                 (pressure p))
            (points initialShape) in
      match getBoundsFromPoints (points shape) with
      | Throw e => Throw e
      | Ok newBounds =>
          Ok (mkPartial points'
                (sub (minX bounds, minY bounds) (minX newBounds, minY newBounds)))
      end
  end.

(** The bounds of the points of a result, translated by its point. *)
Definition placed (r : PartialShape) : result TLBounds :=
  result_map (fun b => translateBounds b (new_point r))
             (getBoundsFromPoints (new_points r)).

(** Two numbers differ by at most [eps]. *)
Definition near (eps a b : float) : bool := abs (a - b) <=? eps.

(** Two bounds agree within [eps] in every field. *)
Definition agree (eps : float) (a b : TLBounds) : bool :=
  near eps (minX a) (minX b) && near eps (minY a) (minY b) &&
  near eps (maxX a) (maxX b) && near eps (maxY a) (maxY b) &&
  near eps (width a) (width b) && near eps (height a) (height b).

(** A finished stroke drawn a little off its local origin. *)
Definition driftShape : DrawShape :=
  mkShape (0.1, 0) [mkPoint 0.3 0 (Some 0.5); mkPoint 0.7 1 (Some 0.5)].

(** A settled tap, a stroke of two identical points: its local bounds are 0
    wide and 0 high. *)
Definition tapShape : DrawShape :=
  mkShape (2, 2) [mkPoint 0 0 (Some 0.5); mkPoint 0 0 (Some 0.5)].

Definition squareTarget : TLBounds := mkBounds 0 0 20 20 20 20.

Definition unflipped (shape : DrawShape) : TLTransformInfo :=
  mkTransformInfo shape 1 1.



(** A tolerance of 2 to the power -40, about 1e-12. *)
Definition fine : float := 0x1p-40.

(** Two results agree within [eps]: in their points, coordinate by
    coordinate, and in their point. *)
Definition alike (eps : float) (a b : PartialShape) : bool :=
  Nat.eqb (List.length (new_points a)) (List.length (new_points b)) &&
  forallb (fun pq => near eps (px (fst pq)) (px (snd pq)) &&
                     near eps (py (fst pq)) (py (snd pq)))
          (combine (new_points a) (new_points b)) &&
  near eps (fst (new_point a)) (fst (new_point b)) &&
  near eps (snd (new_point a)) (snd (new_point b)).

(** A settled stroke of three points, 49 wide and 49 high. *)
Definition steepShape : DrawShape :=
  mkShape (0, 0)
          [mkPoint 0 0 (Some 0.5); mkPoint 1 1 (Some 0.5); mkPoint 49 49 (Some 0.5)].

Definition steepTarget : TLBounds := mkBounds 5 5 54 54 49 49.

(** A settled stroke 3 wide, and a target 13.5 wide. *)
Definition thirdsShape : DrawShape :=
  mkShape (0, 0)
          [mkPoint 0 0 (Some 0.5); mkPoint 1 1 (Some 0.5); mkPoint 3 3 (Some 0.5)].

Definition wideTarget : TLBounds := mkBounds 0 0 13.5 13.5 13.5 13.5.

(** A settled stroke with a bend, and two targets to resize it into in
    turn. *)
Definition bentShape : DrawShape :=
  mkShape (0, 0)
          [mkPoint 0 0 (Some 0.5); mkPoint 2 20 (Some 0.5); mkPoint 49 49 (Some 0.5)].

Definition firstTarget : TLBounds := mkBounds 0 0 13 13 13 13.

Definition unitTarget : TLBounds := mkBounds 0 0 1 1 1 1.

(** Two strokes as drawn, away from their local origin. *)
Definition wanderShape : DrawShape :=
  mkShape (-1.1, -1.7)
          [mkPoint (-0.7) 4.1 (Some 0.5); mkPoint (-3.6) (-2.7) (Some 0.5)].

Definition strayShape : DrawShape :=
  mkShape (-4.7, -2.8)
          [mkPoint 5.5 3.3 (Some 0.5); mkPoint 0.5 (-3.4) (Some 0.5)].

(** The transform info of a resize of [shape] itself under the given
    scales. *)
Definition resizing (shape : DrawShape) (sx sy : float) : TLTransformInfo :=
  mkTransformInfo shape sx sy.

Definition flipX : float := -1.

End Double.

(** * Lemmas *)

(** Nothing is stored in the caches of a fresh [Draw] instance. *)
Ltac fresh_caches :=
  first [ split; intros ? ? G; discriminate G | intros ? ? G; discriminate G ].

(** ** Comparisons *)

Lemma Qltb_lt (a b : Q) : Qltb a b = true <-> a < b.
Proof.
  unfold Qltb. rewrite negb_true_iff. split; intro L.
  - apply Qnot_le_lt. intro G. apply Qle_bool_iff in G. congruence.
  - destruct (Qle_bool b a) eqn:E; [|reflexivity].
    apply Qle_bool_iff in E. exfalso. apply (Qlt_not_le _ _ L E).
Qed.

Lemma Qltb_ge (a b : Q) : Qltb a b = false <-> b <= a.
Proof.
  unfold Qltb. rewrite negb_false_iff. apply Qle_bool_iff.
Qed.

Lemma boundsContain_iff (a b : TLBounds) :
  Utils.boundsContain a b = true <-> contains a b.
Proof.
  unfold Utils.boundsContain, contains.
  rewrite !andb_true_iff, !Qltb_lt. tauto.
Qed.

Lemma nonEmpty_flat_map {A B : Type} (f : A -> list B) (l : list A) :
  nonEmpty (flat_map f l) = true <-> Exists (fun x => nonEmpty (f x) = true) l.
Proof.
  induction l as [|x l IH]; simpl.
  - split; [discriminate | intro E; inversion E].
  - destruct (f x) as [|y ys] eqn:Fx; simpl.
    + rewrite IH. split; intro E.
      * now apply Exists_cons_tl.
      * inversion E as [? ? Hx | ? ? Hl]; subst; [|assumption].
        rewrite Fx in Hx. discriminate.
    + split; [intros _ | reflexivity].
      apply Exists_cons_hd. now rewrite Fx.
Qed.

Lemma boundsBounds_iff (a b : TLBounds) :
  nonEmpty (Intersect.bounds.bounds a b) = true <-> overlap a b.
Proof.
  unfold Intersect.bounds.bounds, overlap.
  destruct (Qle_bool (minX a) (maxX b) && Qle_bool (minX b) (maxX a) &&
            Qle_bool (minY a) (maxY b) && Qle_bool (minY b) (maxY a)) eqn:E; simpl.
  - rewrite !andb_true_iff, !Qle_bool_iff in E. tauto.
  - split; [discriminate|]. intros (A & B & C & D).
    apply Qle_bool_iff in A, B, C, D. rewrite A, B, C, D in E. discriminate.
Qed.

(** ** The segment test finds exactly the segments with a common point *)

Lemma opposite_iff d e : Intersect.opposite d e = true <-> (d < 0 /\ 0 < e) \/ (e < 0 /\ 0 < d).
Proof.
  unfold Intersect.opposite. rewrite orb_true_iff, !andb_true_iff, !Qltb_lt. tauto.
Qed.

Lemma within_iff a b p : Intersect.within a b p = true <->
  Qmin (fst a) (fst b) <= fst p /\ fst p <= Qmax (fst a) (fst b) /\
  Qmin (snd a) (snd b) <= snd p /\ snd p <= Qmax (snd a) (snd b).
Proof.
  unfold Intersect.within. rewrite !andb_true_iff, !Qle_bool_iff. tauto.
Qed.

Lemma on_segment_start a b : on_segment a b a.
Proof. exists 0. repeat split; try lra; ring. Qed.
Lemma on_segment_end a b : on_segment a b b.
Proof. exists 1. repeat split; try lra; ring. Qed.

Lemma ratio_bounds (lo hi x : Q) : lo < hi -> lo <= x -> x <= hi ->
  0 <= (x - lo) / (hi - lo) /\ (x - lo) / (hi - lo) <= 1.
Proof.
  intros L A B. assert (P : 0 < hi - lo) by lra.
  assert (Pi : 0 < / (hi - lo)) by now apply Qinv_lt_0_compat.
  split.
  - unfold Qdiv. apply Qmult_le_0_compat; lra.
  - apply (Qmult_le_r _ _ (hi - lo) P). 
    assert ((x - lo) / (hi - lo) * (hi - lo) == x - lo) by (field; lra). lra.
Qed.


Lemma between_iff (a b p : Q) :
  Qmin a b <= p /\ p <= Qmax a b <-> (p - a) * (p - b) <= 0.
Proof.
  destruct (Q.min_spec a b) as [[L E]|[L E]];
  destruct (Q.max_spec a b) as [[L' E']|[L' E']]; try lra; rewrite E, E'.
  - split; [intros [A B]; nra | intro P; split; nra].
  - split; [intros [A B]; nra | intro P; split; nra].
Qed.

Lemma within_prod a b p : Intersect.within a b p = true <->
  (fst p - fst a) * (fst p - fst b) <= 0 /\ (snd p - snd a) * (snd p - snd b) <= 0.
Proof.
  rewrite within_iff, <- !between_iff. tauto.
Qed.

Lemma Qsquare_nonneg (x : Q) : 0 <= x * x.
Proof.
  destruct (Qlt_le_dec x 0) as [N | P].
  - setoid_replace (x * x) with ((- x) * (- x)) by ring.
    apply Qmult_le_0_compat; lra.
  - now apply Qmult_le_0_compat.
Qed.

Lemma convex_between (a b t : Q) :
  0 <= t -> t <= 1 ->
  (a + t * (b - a) - a) * (a + t * (b - a) - b) <= 0.
Proof.
  intros T0 T1.
  assert (T : 0 <= t * (1 - t)) by (apply Qmult_le_0_compat; lra).
  pose proof (Qmult_le_0_compat _ _ T (Qsquare_nonneg (b - a))) as P.
  setoid_replace ((a + t * (b - a) - a) * (a + t * (b - a) - b))
    with (- (t * (1 - t) * ((b - a) * (b - a)))) by ring.
  lra.
Qed.

Lemma on_segment_within a b p : on_segment a b p -> Intersect.within a b p = true.
Proof.
  intros (t & T0 & T1 & Ex & Ey). apply within_prod.
  rewrite Ex, Ey. split; now apply convex_between.
Qed.

Lemma on_segment_cross a b p : on_segment a b p -> Intersect.cross a b p == 0.
Proof.
  intros (t & _ & _ & Ex & Ey). unfold Intersect.cross. rewrite Ex, Ey. ring.
Qed.

Lemma unit_from_product (l c : Q) :
  ~ c == 0 -> (l * c) * (l * c - c) <= 0 -> 0 <= l /\ l <= 1.
Proof.
  intros N P.
  assert (C2 : 0 < c * c).
  { destruct (Q_dec c 0) as [[L|G]|E]; [|now apply Qmult_lt_0_compat|contradiction].
    setoid_replace (c * c) with ((-c) * (-c)) by ring. apply Qmult_lt_0_compat; lra. }
  setoid_replace ((l * c) * (l * c - c)) with ((l * (l - 1)) * (c * c)) in P by ring.
  assert (L : l * (l - 1) <= 0).
  { destruct (Qlt_le_dec 0 (l * (l - 1))) as [G | ?]; [|assumption].
    pose proof (Qmult_lt_0_compat _ _ G C2). lra. }
  split.
  - destruct (Qlt_le_dec l 0) as [G | ?]; [|assumption].
    assert (0 < (- l) * (1 - l)) by (apply Qmult_lt_0_compat; lra).
    setoid_replace (l * (l - 1)) with ((- l) * (1 - l)) in L by ring. lra.
  - destruct (Qlt_le_dec 1 l) as [G | ?]; [|assumption].
    assert (0 < l * (l - 1)) by (apply Qmult_lt_0_compat; lra). lra.
Qed.

Lemma on_segment_compat (a b p q : vec) :
  fst p == fst q -> snd p == snd q -> on_segment a b p -> on_segment a b q.
Proof.
  intros Ex Ey (t & T0 & T1 & Hx & Hy). exists t. repeat split; auto; lra.
Qed.

Lemma on_line_param (a b p : vec) :
  Intersect.cross a b p == 0 ->
  ~ (fst a == fst b /\ snd a == snd b) ->
  exists l, fst p == fst a + l * (fst b - fst a) /\
            snd p == snd a + l * (snd b - snd a).
Proof.
  destruct a as [ax ay], b as [bx by_], p as [x y]. unfold Intersect.cross; simpl.
  intros C N.
  destruct (Qeq_dec ax bx) as [Ex | Nx].
  - assert (Ny : ~ ay == by_) by tauto.
    exists ((y - ay) / (by_ - ay)). split.
    + assert (Z : (by_ - ay) * (x - ax) == 0).
      { setoid_replace (bx - ax) with 0 in C by lra. lra. }
      apply Qmult_integral in Z. destruct Z as [Z | Z]; [lra|].
      setoid_replace (bx - ax) with 0 by lra. lra.
    + field. lra.
  - exists ((x - ax) / (bx - ax)). split.
    + field. lra.
    + assert (N' : ~ bx - ax == 0) by lra.
      apply (Qmult_inj_r _ _ (bx - ax) N').
      transitivity (ay * (bx - ax) + (x - ax) * (by_ - ay)); [lra|]. field. lra.
Qed.

Lemma param_unique (a b : vec) (l m : Q) :
  ~ (fst a == fst b /\ snd a == snd b) ->
  l * (fst b - fst a) == m * (fst b - fst a) ->
  l * (snd b - snd a) == m * (snd b - snd a) ->
  l == m.
Proof.
  intros N Ex Ey.
  destruct (Qeq_dec (fst a) (fst b)) as [E | Nx].
  - assert (Ny : ~ snd b - snd a == 0) by (intro; apply N; split; lra).
    assert (Z : (l - m) * (snd b - snd a) == 0) by lra.
    apply Qmult_integral in Z. destruct Z; [lra | contradiction].
  - assert (Nx' : ~ fst b - fst a == 0) by lra.
    assert (Z : (l - m) * (fst b - fst a) == 0) by lra.
    apply Qmult_integral in Z. destruct Z; [lra | contradiction].
Qed.

Lemma param_in_unit (a b p : vec) (l : Q) :
  ~ (fst a == fst b /\ snd a == snd b) ->
  fst p == fst a + l * (fst b - fst a) ->
  snd p == snd a + l * (snd b - snd a) ->
  Intersect.within a b p = true ->
  0 <= l /\ l <= 1.
Proof.
  intros N Lx Ly W. apply within_prod in W. destruct W as [Wx Wy].
  destruct (Qeq_dec (fst a) (fst b)) as [E | Nx].
  - apply (unit_from_product l (snd b - snd a)).
    + intro Z. apply N. split; lra.
    + rewrite Ly in Wy.
      setoid_replace (l * (snd b - snd a) * (l * (snd b - snd a) - (snd b - snd a)))
        with ((snd a + l * (snd b - snd a) - snd a) *
              (snd a + l * (snd b - snd a) - snd b)) by ring.
      exact Wy.
  - apply (unit_from_product l (fst b - fst a)).
    + lra.
    + rewrite Lx in Wx.
      setoid_replace (l * (fst b - fst a) * (l * (fst b - fst a) - (fst b - fst a)))
        with ((fst a + l * (fst b - fst a) - fst a) *
              (fst a + l * (fst b - fst a) - fst b)) by ring.
      exact Wx.
Qed.

Lemma collinear_within (a b p : vec) :
  Intersect.cross a b p == 0 -> Intersect.within a b p = true -> on_segment a b p.
Proof.
  intros C W.
  destruct (Qeq_dec (fst a) (fst b)) as [Ex | Nx];
    [destruct (Qeq_dec (snd a) (snd b)) as [Ey | Ny]|].
  - apply within_iff in W. destruct W as (X1 & X2 & Y1 & Y2).
    assert (Qmin (fst a) (fst b) == fst a) by (apply Q.min_l; lra).
    assert (Qmax (fst a) (fst b) == fst a) by (apply Q.max_l; lra).
    assert (Qmin (snd a) (snd b) == snd a) by (apply Q.min_l; lra).
    assert (Qmax (snd a) (snd b) == snd a) by (apply Q.max_l; lra).
    exists 0. repeat split; lra.
  - assert (N : ~ (fst a == fst b /\ snd a == snd b)) by tauto.
    destruct (on_line_param a b p C N) as (l & Lx & Ly).
    destruct (param_in_unit a b p l N Lx Ly W).
    exists l. repeat split; assumption.
  - assert (N : ~ (fst a == fst b /\ snd a == snd b)) by tauto.
    destruct (on_line_param a b p C N) as (l & Lx & Ly).
    destruct (param_in_unit a b p l N Lx Ly W).
    exists l. repeat split; assumption.
Qed.

Lemma crossing_ratio (d e : Q) :
  Intersect.opposite d e = true ->
  ~ d - e == 0 /\ 0 <= d / (d - e) /\ d / (d - e) <= 1.
Proof.
  intro O. apply opposite_iff in O. destruct O as [[L G] | [L G]].
  - split; [lra|].
    destruct (ratio_bounds d e 0) as [A B]; try lra.
    assert (E : d / (d - e) == (0 - d) / (e - d)) by (field; split; lra).
    rewrite E. split; assumption.
  - split; [lra|].
    destruct (ratio_bounds e d 0) as [A B]; try lra.
    assert (E : d / (d - e) == 1 - (0 - e) / (d - e)) by (field; lra).
    rewrite E. split; lra.
Qed.

Lemma segmentsMeet_sound (a1 a2 b1 b2 : vec) :
  Intersect.segmentsMeet a1 a2 b1 b2 = true -> share_point a1 a2 b1 b2.
Proof.
  unfold Intersect.segmentsMeet. rewrite !orb_true_iff, !andb_true_iff, !Qeq_bool_iff.
  intros [[[[[O12 O34] | [Z W]] | [Z W]] | [Z W]] | [Z W]].
  - destruct (crossing_ratio _ _ O12) as (N12 & T0 & T1).
    destruct (crossing_ratio _ _ O34) as (N34 & S0 & S1).
    set (t := Intersect.cross b1 b2 a1 / (Intersect.cross b1 b2 a1 - Intersect.cross b1 b2 a2)) in *.
    set (s := Intersect.cross a1 a2 b1 / (Intersect.cross a1 a2 b1 - Intersect.cross a1 a2 b2)) in *.
    exists (fst a1 + t * (fst a2 - fst a1), snd a1 + t * (snd a2 - snd a1)).
    split.
    + exists t. simpl. repeat split; auto; reflexivity.
    + exists s. simpl. repeat split; auto.
      * unfold t, s. unfold Intersect.cross in *. field. split; assumption.
      * unfold t, s. unfold Intersect.cross in *. field. split; assumption.
  - exists a1. split; [apply on_segment_start | now apply collinear_within].
  - exists a2. split; [apply on_segment_end | now apply collinear_within].
  - exists b1. split; [now apply collinear_within | apply on_segment_start].
  - exists b2. split; [now apply collinear_within | apply on_segment_end].
Qed.

Lemma ratio_between (a b x : Q) :
  ~ a == b -> (x - a) * (x - b) <= 0 ->
  0 <= (x - a) / (b - a) /\ (x - a) / (b - a) <= 1.
Proof.
  intros N P. apply (unit_from_product _ (b - a)); [lra|].
  assert (E : (x - a) / (b - a) * (b - a) == x - a) by (field; lra).
  rewrite E. setoid_replace (x - a - (b - a)) with (x - b) by ring. exact P.
Qed.

Lemma opposite_from_combination (d e t : Q) :
  0 <= t -> t <= 1 -> (1 - t) * d + t * e == 0 ->
  ~ d == 0 -> ~ e == 0 -> Intersect.opposite d e = true.
Proof.
  intros T0 T1 C Nd Ne. apply opposite_iff.
  destruct (Q_dec d 0) as [[Ld | Gd] | Ed]; [| |contradiction];
    destruct (Q_dec e 0) as [[Le | Ge] | Ee]; try contradiction; auto.
  - (* both negative *)
    exfalso.
    assert (A : 0 <= (1 - t) * (- d)) by (apply Qmult_le_0_compat; lra).
    assert (B : 0 <= t * (- e)) by (apply Qmult_le_0_compat; lra).
    assert (Z : t * (- e) == 0) by lra.
    apply Qmult_integral in Z. destruct Z as [Z | Z]; [|lra].
    assert (Z' : (1 - t) * (- d) == 0) by lra.
    apply Qmult_integral in Z'. destruct Z'; lra.
  - (* both positive *)
    exfalso.
    assert (A : 0 <= (1 - t) * d) by (apply Qmult_le_0_compat; lra).
    assert (B : 0 <= t * e) by (apply Qmult_le_0_compat; lra).
    assert (Z : t * e == 0) by lra.
    apply Qmult_integral in Z. destruct Z as [Z | Z]; [|lra].
    assert (Z' : (1 - t) * d == 0) by lra.
    apply Qmult_integral in Z'. destruct Z'; lra.
Qed.

Lemma cross_combination (a b c1 c2 p : vec) (t : Q) :
  fst p == fst c1 + t * (fst c2 - fst c1) ->
  snd p == snd c1 + t * (snd c2 - snd c1) ->
  Intersect.cross a b p == (1 - t) * Intersect.cross a b c1 + t * Intersect.cross a b c2.
Proof.
  intros Ex Ey. unfold Intersect.cross. rewrite Ex, Ey. ring.
Qed.

Lemma unit_outside_product (al be s : Q) :
  0 <= s -> s <= 1 -> (s - al) * (s - be) <= 0 ->
  (0 <= al /\ al <= 1) \/ (0 <= be /\ be <= 1) \/
  (~ al == be /\ (0 - al) * (0 - be) <= 0).
Proof.
  intros S0 S1 P.
  destruct (Qlt_le_dec al 0) as [La | Ga]; [|destruct (Qlt_le_dec 1 al) as [La' | Ga']];
    [| |left; split; assumption];
    (destruct (Qlt_le_dec be 0) as [Lb | Gb]; [|destruct (Qlt_le_dec 1 be) as [Lb' | Gb']];
     [| |right; left; split; assumption]).
  - exfalso. assert (0 < (s - al) * (s - be)) by (apply Qmult_lt_0_compat; lra). lra.
  - right. right. split; [lra|].
    assert (0 < (0 - al) * be) by (apply Qmult_lt_0_compat; lra). lra.
  - right. right. split; [lra|].
    assert (0 < al * (0 - be)) by (apply Qmult_lt_0_compat; lra). lra.
  - exfalso. assert (0 < (al - s) * (be - s)) by (apply Qmult_lt_0_compat; lra). lra.
Qed.

Lemma collinear_overlap (a1 a2 b1 b2 p : vec) :
  ~ (fst b1 == fst b2 /\ snd b1 == snd b2) ->
  Intersect.cross b1 b2 a1 == 0 -> Intersect.cross b1 b2 a2 == 0 ->
  on_segment a1 a2 p -> on_segment b1 b2 p ->
  on_segment b1 b2 a1 \/ on_segment b1 b2 a2 \/ on_segment a1 a2 b1.
Proof.
  intros Nb C1 C2 (t & T0 & T1 & Ax & Ay) (s & S0 & S1 & Bx & By).
  destruct (on_line_param b1 b2 a1 C1 Nb) as (al & Alx & Aly).
  destruct (on_line_param b1 b2 a2 C2 Nb) as (be & Bex & Bey).
  assert (Es : s == al + t * (be - al)).
  { apply (param_unique b1 b2); auto.
    - rewrite Alx, Bex in Ax. rewrite Bx in Ax.
      transitivity (fst b1 + s * (fst b2 - fst b1) - fst b1); [ring|].
      rewrite Ax. ring.
    - rewrite Aly, Bey in Ay. rewrite By in Ay.
      transitivity (snd b1 + s * (snd b2 - snd b1) - snd b1); [ring|].
      rewrite Ay. ring. }
  assert (P : (s - al) * (s - be) <= 0).
  { rewrite Es. apply convex_between; assumption. }
  destruct (unit_outside_product al be s S0 S1 P) as [[A0 A1] | [[B0 B1] | [Nab Pab]]].
  - left. exists al. repeat split; assumption.
  - right. left. exists be. repeat split; assumption.
  - right. right.
    destruct (ratio_between al be 0 Nab Pab) as [R0 R1].
    exists ((0 - al) / (be - al)). repeat split; auto.
    + rewrite Alx, Bex. field. lra.
    + rewrite Aly, Bey. field. lra.
Qed.

Lemma endpoint_hit (a b p : vec) :
  on_segment a b p -> Intersect.cross a b p == 0 /\ Intersect.within a b p = true.
Proof.
  intro O. split; [now apply on_segment_cross | now apply on_segment_within].
Qed.

(** One half of the case analysis: seen from the line through [b1] and
    [b2], either an end point of one segment lies on the other segment, or
    [a1] and [a2] lie strictly on Intersect.opposite sides. *)
Lemma sides_or_endpoint (a1 a2 b1 b2 : vec) :
  ~ (fst b1 == fst b2 /\ snd b1 == snd b2) ->
  share_point a1 a2 b1 b2 ->
  on_segment b1 b2 a1 \/ on_segment b1 b2 a2 \/ on_segment a1 a2 b1 \/
  Intersect.opposite (Intersect.cross b1 b2 a1) (Intersect.cross b1 b2 a2) = true.
Proof.
  intros Nb (p & Pa & Pb).
  destruct (Pa) as (t & T0 & T1 & Ax & Ay).
  pose proof (on_segment_cross _ _ _ Pb) as Cb.
  rewrite (cross_combination b1 b2 a1 a2 p t Ax Ay) in Cb.
  destruct (Qeq_dec (Intersect.cross b1 b2 a1) 0) as [Z1 | N1];
    destruct (Qeq_dec (Intersect.cross b1 b2 a2) 0) as [Z2 | N2].
  - destruct (collinear_overlap a1 a2 b1 b2 p Nb Z1 Z2 Pa Pb) as [O | [O | O]]; tauto.
  - left. assert (Zt : t * Intersect.cross b1 b2 a2 == 0) by (rewrite Z1 in Cb; lra).
    apply Qmult_integral in Zt. destruct Zt as [Zt | Zt]; [|contradiction].
    apply (on_segment_compat _ _ p); [| |exact Pb].
    + rewrite Ax, Zt. ring.
    + rewrite Ay, Zt. ring.
  - right. left.
    assert (Zt : (1 - t) * Intersect.cross b1 b2 a1 == 0) by (rewrite Z2 in Cb; lra).
    apply Qmult_integral in Zt. destruct Zt as [Zt | Zt]; [|contradiction].
    assert (Et : t == 1) by lra.
    apply (on_segment_compat _ _ p); [| |exact Pb].
    + rewrite Ax, Et. ring.
    + rewrite Ay, Et. ring.
  - right. right. right.
    apply (opposite_from_combination _ _ t T0 T1 Cb N1 N2).
Qed.

Lemma share_point_sym (a1 a2 b1 b2 : vec) :
  share_point a1 a2 b1 b2 -> share_point b1 b2 a1 a2.
Proof. intros (p & Pa & Pb). exists p. split; assumption. Qed.

Lemma same_point_dec (a b : vec) :
  {fst a == fst b /\ snd a == snd b} + {~ (fst a == fst b /\ snd a == snd b)}.
Proof.
  destruct (Qeq_dec (fst a) (fst b)) as [Ex | Nx];
    [destruct (Qeq_dec (snd a) (snd b)) as [Ey | Ny]|].
  - left. split; assumption.
  - right. tauto.
  - right. tauto.
Qed.

Lemma point_segment (a1 a2 p : vec) :
  fst a1 == fst a2 -> snd a1 == snd a2 -> on_segment a1 a2 p ->
  fst p == fst a1 /\ snd p == snd a1.
Proof.
  intros Ex Ey (t & _ & _ & Hx & Hy). split.
  - rewrite Hx. setoid_replace (fst a2 - fst a1) with 0 by lra. ring.
  - rewrite Hy. setoid_replace (snd a2 - snd a1) with 0 by lra. ring.
Qed.

Lemma segmentsMeet_complete (a1 a2 b1 b2 : vec) :
  share_point a1 a2 b1 b2 -> Intersect.segmentsMeet a1 a2 b1 b2 = true.
Proof.
  intro Sh.
  unfold Intersect.segmentsMeet. rewrite !orb_true_iff, !andb_true_iff, !Qeq_bool_iff.
  destruct (same_point_dec b1 b2) as [[Ebx Eby] | Nb];
    [|destruct (same_point_dec a1 a2) as [[Eax Eay] | Na]].
  - (* the second segment is a point, which lies on the first *)
    destruct Sh as (p & Pa & Pb).
    destruct (point_segment b1 b2 p Ebx Eby Pb) as [Ex Ey].
    left. right. apply endpoint_hit. apply (on_segment_compat _ _ p); assumption.
  - (* the first segment is a point, which lies on the second *)
    destruct Sh as (p & Pa & Pb).
    destruct (point_segment a1 a2 p Eax Eay Pa) as [Ex Ey].
    left. left. left. right. apply endpoint_hit.
    apply (on_segment_compat _ _ p); assumption.
  - destruct (sides_or_endpoint a1 a2 b1 b2 Nb Sh) as [O | [O | [O | O12]]].
    + left. left. left. right. now apply endpoint_hit.
    + left. left. right. now apply endpoint_hit.
    + left. right. now apply endpoint_hit.
    + destruct (sides_or_endpoint b1 b2 a1 a2 Na (share_point_sym _ _ _ _ Sh))
        as [O | [O | [O | O34]]].
      * left. right. now apply endpoint_hit.
      * right. now apply endpoint_hit.
      * left. left. left. right. now apply endpoint_hit.
      * left. left. left. left. split; assumption.
Qed.

Lemma segmentsMeet_iff (a1 a2 b1 b2 : vec) :
  Intersect.segmentsMeet a1 a2 b1 b2 = true <-> share_point a1 a2 b1 b2.
Proof.
  split; [apply segmentsMeet_sound | apply segmentsMeet_complete].
Qed.

Lemma segmentBounds_iff (s : vec * vec) (b : TLBounds) :
  nonEmpty (Intersect.segmentBounds s b) = true <->
  Exists (fun e => share_point (fst s) (snd s) (fst e) (snd e))
         (Intersect.edges b).
Proof.
  unfold Intersect.segmentBounds. rewrite nonEmpty_flat_map.
  split; apply Exists_impl; intros e; rewrite <- segmentsMeet_iff;
    destruct (Intersect.segmentsMeet (fst s) (snd s) (fst e) (snd e));
    simpl; congruence.
Qed.

(** The four edges of a box make up its boundary, and the segments of a
    polyline join its consecutive points. *)
Lemma between_minmax (a x b : Q) :
  between a x b <-> Qmin a b <= x /\ x <= Qmax a b.
Proof.
  unfold between.
  destruct (Q.min_spec a b) as [[L E]|[L E]];
    destruct (Q.max_spec a b) as [[L' E']|[L' E']]; rewrite E, E'; lra.
Qed.

Lemma level_segment (x1 x2 y : Q) (p : vec) :
  on_segment (x1, y) (x2, y) p <-> snd p == y /\ between x1 (fst p) x2.
Proof.
  rewrite between_minmax. split.
  - intro S. pose proof (on_segment_within _ _ _ S) as W.
    apply within_iff in W. cbn [fst snd] in W.
    rewrite Q.min_id, Q.max_id in W. destruct W as (X1 & X2 & Y1 & Y2).
    split; [lra | split; assumption].
  - intros (Ey & X1 & X2). apply collinear_within.
    + unfold Intersect.cross. cbn [fst snd]. rewrite Ey. ring.
    + apply within_iff. cbn [fst snd]. rewrite Q.min_id, Q.max_id.
      repeat split; try assumption; lra.
Qed.

Lemma upright_segment (x y1 y2 : Q) (p : vec) :
  on_segment (x, y1) (x, y2) p <-> fst p == x /\ between y1 (snd p) y2.
Proof.
  rewrite between_minmax. split.
  - intro S. pose proof (on_segment_within _ _ _ S) as W.
    apply within_iff in W. cbn [fst snd] in W.
    rewrite Q.min_id, Q.max_id in W. destruct W as (X1 & X2 & Y1 & Y2).
    split; [lra | split; assumption].
  - intros (Ex & Y1 & Y2). apply collinear_within.
    + unfold Intersect.cross. cbn [fst snd]. rewrite Ex. ring.
    + apply within_iff. cbn [fst snd]. rewrite Q.min_id, Q.max_id.
      repeat split; try assumption; lra.
Qed.

Lemma edges_boundary (b : TLBounds) (p : vec) :
  Exists (fun e => on_segment (fst e) (snd e) p) (Intersect.edges b) <->
  on_boundary b p.
Proof.
  unfold Intersect.edges, on_boundary.
  rewrite !Exists_cons, Exists_nil. cbn [fst snd].
  rewrite !level_segment, !upright_segment. unfold between. tauto.
Qed.

Lemma segments_consecutive (pts : list vec) (a c : vec) :
  In (a, c) (Intersect.segments pts) <-> consecutive pts a c.
Proof.
  unfold consecutive. induction pts as [|x [|y rest] IH].
  - split; [intros [] | intros ([|i] & E & _); discriminate E].
  - split; [intros [] | intros ([|[|i]] & _ & E); discriminate E].
  - change (Intersect.segments (x :: y :: rest))
      with ((x, y) :: Intersect.segments (y :: rest)).
    split.
    + intros [E | I].
      * injection E as <- <-. exists 0%nat. split; reflexivity.
      * apply IH in I. destruct I as (i & Ea & Ec). exists (S i). split; assumption.
    + intros ([|i] & Ea & Ec).
      * left. cbn in Ea, Ec. congruence.
      * right. apply IH. exists i. split; assumption.
Qed.

Lemma polylineBounds_iff (pts : list vec) (b : TLBounds) :
  nonEmpty (Intersect.polyline.bounds pts b) = true <-> crosses pts b.
Proof.
  unfold Intersect.polyline.bounds, Intersect.bounds.polyline, crosses.
  rewrite nonEmpty_flat_map, Exists_exists. split.
  - intros ((a, c) & I & S). apply segmentBounds_iff in S.
    apply Exists_exists in S. destruct S as (e & Ie & (p & Sp & Ep)).
    exists a, c, p. split; [apply segments_consecutive; exact I|].
    split; [exact Sp|]. apply edges_boundary. apply Exists_exists.
    exists e. split; assumption.
  - intros (a & c & p & Cn & Sp & Bp).
    exists (a, c). split; [apply segments_consecutive; exact Cn|].
    apply segmentBounds_iff. apply edges_boundary in Bp.
    apply Exists_exists in Bp. destruct Bp as (e & Ie & Ep).
    apply Exists_exists. exists e. split; [exact Ie|].
    exists p. split; assumption.
Qed.

(** ** Running minima and maxima *)

Section Extremes.

Variable f : Point -> Q.

Lemma fold_min_below (rest : list Point) (m0 : Q) :
  fold_left (fun m q => Qmin (f q) m) rest m0 <= m0 /\
  Forall (fun p => fold_left (fun m q => Qmin (f q) m) rest m0 <= f p) rest.
Proof.
  revert m0. induction rest as [|q rest IH]; intro m0; simpl.
  - split; [apply Qle_refl | constructor].
  - destruct (IH (Qmin (f q) m0)) as [I1 I2].
    pose proof (Q.le_min_l (f q) m0). pose proof (Q.le_min_r (f q) m0).
    split; [lra|]. constructor; [lra | assumption].
Qed.

Lemma fold_min_attained (rest : list Point) (m0 : Q) :
  fold_left (fun m q => Qmin (f q) m) rest m0 == m0 \/
  Exists (fun p => f p == fold_left (fun m q => Qmin (f q) m) rest m0) rest.
Proof.
  revert m0. induction rest as [|q rest IH]; intro m0; simpl.
  - left. reflexivity.
  - destruct (IH (Qmin (f q) m0)) as [E | E].
    + destruct (Q.min_dec (f q) m0) as [D | D].
      * right. apply Exists_cons_hd. lra.
      * left. lra.
    + right. now apply Exists_cons_tl.
Qed.

Lemma fold_max_above (rest : list Point) (m0 : Q) :
  m0 <= fold_left (fun m q => Qmax (f q) m) rest m0 /\
  Forall (fun p => f p <= fold_left (fun m q => Qmax (f q) m) rest m0) rest.
Proof.
  revert m0. induction rest as [|q rest IH]; intro m0; simpl.
  - split; [apply Qle_refl | constructor].
  - destruct (IH (Qmax (f q) m0)) as [I1 I2].
    pose proof (Q.le_max_l (f q) m0). pose proof (Q.le_max_r (f q) m0).
    split; [lra|]. constructor; [lra | assumption].
Qed.

Lemma fold_max_attained (rest : list Point) (m0 : Q) :
  fold_left (fun m q => Qmax (f q) m) rest m0 == m0 \/
  Exists (fun p => f p == fold_left (fun m q => Qmax (f q) m) rest m0) rest.
Proof.
  revert m0. induction rest as [|q rest IH]; intro m0; simpl.
  - left. reflexivity.
  - destruct (IH (Qmax (f q) m0)) as [E | E].
    + destruct (Q.max_dec (f q) m0) as [D | D].
      * right. apply Exists_cons_hd. lra.
      * left. lra.
    + right. now apply Exists_cons_tl.
Qed.

Lemma fold_min_lowest (p : Point) (rest : list Point) :
  lowest f (p :: rest) (fold_left (fun m q => Qmin (f q) m) rest (f p)).
Proof.
  destruct (fold_min_below rest (f p)) as [B1 B2].
  split.
  - constructor; assumption.
  - destruct (fold_min_attained rest (f p)) as [E | E].
    + apply Exists_cons_hd. symmetry. exact E.
    + apply Exists_cons_tl.
      revert E. apply Exists_impl. intros a Ha. exact Ha.
Qed.

Lemma fold_max_highest (p : Point) (rest : list Point) :
  highest f (p :: rest) (fold_left (fun m q => Qmax (f q) m) rest (f p)).
Proof.
  destruct (fold_max_above rest (f p)) as [B1 B2].
  split.
  - constructor; assumption.
  - destruct (fold_max_attained rest (f p)) as [E | E].
    + apply Exists_cons_hd. symmetry. exact E.
    + apply Exists_cons_tl.
      revert E. apply Exists_impl. intros a Ha. exact Ha.
Qed.

Lemma lowest_unique (pts : list Point) (m m' : Q) :
  lowest f pts m -> lowest f pts m' -> m == m'.
Proof.
  intros [L1 A1] [L2 A2].
  rewrite Forall_forall in L1, L2. rewrite Exists_exists in A1, A2.
  destruct A1 as (p & Ip & Ep). destruct A2 as (q & Iq & Eq).
  pose proof (L1 q Iq). pose proof (L2 p Ip). lra.
Qed.

Lemma highest_unique (pts : list Point) (m m' : Q) :
  highest f pts m -> highest f pts m' -> m == m'.
Proof.
  intros [L1 A1] [L2 A2].
  rewrite Forall_forall in L1, L2. rewrite Exists_exists in A1, A2.
  destruct A1 as (p & Ip & Ep). destruct A2 as (q & Iq & Eq).
  pose proof (L1 q Iq). pose proof (L2 p Ip). lra.
Qed.




(** Transport of extremes along a point-wise relation of two sequences. *)
Variable g : Point -> Q.
Variable h : Q -> Q.

Lemma Forall_transport (P P' : Q -> Prop) (pts qs : list Point) :
  (forall p q, g q == h (f p) -> P (f p) -> P' (g q)) ->
  Forall2 (fun p q => g q == h (f p)) pts qs ->
  Forall (fun p => P (f p)) pts -> Forall (fun q => P' (g q)) qs.
Proof.
  intros Step R. induction R as [|p q pts qs Rpq R IH]; intro L.
  - constructor.
  - inversion L; subst. constructor; eauto.
Qed.

Lemma Exists_transport (P P' : Q -> Prop) (pts qs : list Point) :
  (forall p q, g q == h (f p) -> P (f p) -> P' (g q)) ->
  Forall2 (fun p q => g q == h (f p)) pts qs ->
  Exists (fun p => P (f p)) pts -> Exists (fun q => P' (g q)) qs.
Proof.
  intros Step R. induction R as [|p q pts qs Rpq R IH]; intro E.
  - inversion E.
  - inversion E; subst; [apply Exists_cons_hd | apply Exists_cons_tl]; eauto.
Qed.

Lemma lowest_mono (pts qs : list Point) (m : Q) :
  (forall a b, a <= b -> h a <= h b) ->
  Forall2 (fun p q => g q == h (f p)) pts qs ->
  lowest f pts m -> lowest g qs (h m).
Proof.
  intros Mono R [L A]. split.
  - apply (Forall_transport (fun v => m <= v) (fun v => h m <= v) pts qs); auto.
    intros p q E Lp. pose proof (Mono _ _ Lp). lra.
  - apply (Exists_transport (fun v => v == m) (fun v => v == h m) pts qs); auto.
    intros p q E Ep.
    assert (h (f p) == h m) by (apply Qle_antisym; apply Mono; lra). lra.
Qed.

Lemma highest_mono (pts qs : list Point) (m : Q) :
  (forall a b, a <= b -> h a <= h b) ->
  Forall2 (fun p q => g q == h (f p)) pts qs ->
  highest f pts m -> highest g qs (h m).
Proof.
  intros Mono R [L A]. split.
  - apply (Forall_transport (fun v => v <= m) (fun v => v <= h m) pts qs); auto.
    intros p q E Lp. pose proof (Mono _ _ Lp). lra.
  - apply (Exists_transport (fun v => v == m) (fun v => v == h m) pts qs); auto.
    intros p q E Ep.
    assert (h (f p) == h m) by (apply Qle_antisym; apply Mono; lra). lra.
Qed.



End Extremes.

(** ** Bounds of a point set *)

Section BoundsFacts.

Context `{JSMath}.

Lemma getBoundsFromPoints_unrotated (pts : list Point) (r : Q) :
  r == 0 ->
  Utils.getBoundsFromPoints pts r =
  match pts with
  | [] => Throw EmptyInput
  | p :: rest => Ok (Utils.envelope p rest)
  end.
Proof.
  intro R. unfold Utils.getBoundsFromPoints.
  destruct pts as [|p rest]; [reflexivity|].
  now rewrite (Qeq_eq_bool _ _ R).
Qed.

Lemma envelope_is_envelope (p : Point) (rest : list Point) :
  is_envelope (p :: rest) (Utils.envelope p rest).
Proof.
  unfold is_envelope, Utils.envelope; simpl.
  repeat split;
    try apply (fold_min_lowest px); try apply (fold_min_lowest py);
    try apply (fold_max_highest px); try apply (fold_max_highest py);
    reflexivity.
Qed.

Lemma getBoundsFromPoints_spec (pts : list Point) :
  pts <> [] ->
  exists b, Utils.getBoundsFromPoints pts 0 = Ok b /\ is_envelope pts b.
Proof.
  intro N. rewrite getBoundsFromPoints_unrotated by reflexivity.
  destruct pts as [|p rest]; [congruence|].
  eexists; split; [reflexivity | apply envelope_is_envelope].
Qed.

Lemma getBoundsFromPoints_sound (pts : list Point) (b : TLBounds) :
  Utils.getBoundsFromPoints pts 0 = Ok b -> pts <> [] /\ is_envelope pts b.
Proof.
  rewrite getBoundsFromPoints_unrotated by reflexivity.
  destruct pts as [|p rest]; [discriminate|].
  intro E. injection E as <-. split; [discriminate | apply envelope_is_envelope].
Qed.

Lemma is_envelope_unique (pts : list Point) (a b : TLBounds) :
  is_envelope pts a -> is_envelope pts b -> Bounds_equiv a b.
Proof.
  intros (A1 & A2 & A3 & A4 & A5 & A6) (B1 & B2 & B3 & B4 & B5 & B6).
  pose proof (lowest_unique _ _ _ _ A1 B1).
  pose proof (lowest_unique _ _ _ _ A2 B2).
  pose proof (highest_unique _ _ _ _ A3 B3).
  pose proof (highest_unique _ _ _ _ A4 B4).
  unfold Bounds_equiv. repeat split; lra.
Qed.

(** ** The caches *)

Lemma getFromCache_run {K V : Type} (eq_dec : forall a b : K, {a = b} + {a <> b})
      (get : Caches -> WeakMap K V) (set : WeakMap K V -> Caches -> Caches)
      (k : K) (getNext : result V) (c : Caches) :
  (forall v, wm_get eq_dec (get c) k = Some v -> getNext = Ok v) ->
  run (Utils.getFromCache eq_dec get set k getNext) c = getNext.
Proof.
  intro Valid. unfold run, Utils.getFromCache.
  destruct (wm_get eq_dec (get c) k) as [v|] eqn:G.
  - simpl. symmetry. now apply Valid.
  - destruct getNext; reflexivity.
Qed.

Lemma getFromCache_state {K V : Type} (eq_dec : forall a b : K, {a = b} + {a <> b})
      (get : Caches -> WeakMap K V) (set : WeakMap K V -> Caches -> Caches)
      (k : K) (getNext : result V) (c : Caches) :
  snd (Utils.getFromCache eq_dec get set k getNext c) = c \/
  exists v, getNext = Ok v /\
            snd (Utils.getFromCache eq_dec get set k getNext c) =
            set (wm_set (get c) k v) c.
Proof.
  unfold Utils.getFromCache.
  destruct (wm_get eq_dec (get c) k) as [v|]; [now left|].
  destruct getNext as [v|e]; [right; now exists v | now left].
Qed.

Lemma emptyCaches_valid : caches_valid emptyCaches.
Proof. split; intros k b G; discriminate G. Qed.

Lemma getBounds_run (shape : DrawShape) (c : Caches) :
  caches_valid c ->
  run (getBounds shape) c =
  result_map (fun b => Utils.translateBounds b (point shape))
             (Utils.getBoundsFromPoints (points shape) 0).
Proof.
  intros [V _]. unfold getBounds, run, bind.
  pose proof (getFromCache_run Points_eq_dec pointsBoundsCache set_pointsBoundsCache
                (points shape) (Utils.getBoundsFromPoints (points shape) 0) c
                (V (points shape))) as R.
  unfold run in R.
  destruct (Utils.getFromCache _ _ _ _ _ c) as [r c']. simpl in R. subst r.
  destruct (Utils.getBoundsFromPoints (points shape) 0); reflexivity.
Qed.

Lemma getBounds_state (shape : DrawShape) (c : Caches) :
  snd (getBounds shape c) =
  snd (Utils.getFromCache Points_eq_dec pointsBoundsCache set_pointsBoundsCache
         (points shape) (Utils.getBoundsFromPoints (points shape) 0) c).
Proof.
  unfold getBounds, bind.
  destruct (Utils.getFromCache _ _ _ _ _ c) as [[b|e] c']; reflexivity.
Qed.

Lemma getBounds_valid (shape : DrawShape) (c : Caches) :
  caches_valid c -> caches_valid (snd (getBounds shape c)).
Proof.
  intros V. rewrite getBounds_state.
  destruct (getFromCache_state Points_eq_dec pointsBoundsCache set_pointsBoundsCache
              (points shape) (Utils.getBoundsFromPoints (points shape) 0) c)
    as [-> | (v & Ev & ->)]; [assumption|].
  destruct V as [V1 V2]. split; simpl; [|exact V2].
  intros pts b. destruct (Points_eq_dec pts (points shape)) as [-> | _].
  - intro E. injection E as <-. exact Ev.
  - apply V1.
Qed.

Lemma bind_run {A B : Type} (m : M A) (k : A -> M B) (c : Caches) :
  run (bind m k) c =
  match run m c with
  | Ok a => run (k a) (snd (m c))
  | Throw e => Throw e
  end.
Proof.
  unfold run, bind. destruct (m c) as [[a|e] c']; reflexivity.
Qed.

End BoundsFacts.

(** * Properties of the shape contract *)

Lemma Forall2_map_graph {A B : Type} (R : A -> B -> Prop) (g : A -> B) (l : list A) :
  (forall a, R a (g a)) -> Forall2 R l (map g l).
Proof.
  intro G. induction l; simpl; constructor; auto.
Qed.


Lemma is_envelope_same_place (pts qs : list Point) (b : TLBounds) :
  Forall2 same_place pts qs -> is_envelope pts b -> is_envelope qs b.
Proof.
  intros R (A1 & A2 & A3 & A4 & A5 & A6).
  assert (Rx : Forall2 (fun p q => px q == (fun v => v) (px p)) pts qs).
  { revert R. apply Forall2_impl. intros p q (E & _). symmetry. exact E. }
  assert (Ry : Forall2 (fun p q => py q == (fun v => v) (py p)) pts qs).
  { revert R. apply Forall2_impl. intros p q (_ & E). symmetry. exact E. }
  refine (conj _ (conj _ (conj _ (conj _ (conj A5 A6))))).
  - apply (lowest_mono px px (fun v => v) pts qs); auto.
  - apply (lowest_mono py py (fun v => v) pts qs); auto.
  - apply (highest_mono px px (fun v => v) pts qs); auto.
  - apply (highest_mono py py (fun v => v) pts qs); auto.
Qed.

Lemma is_envelope_equiv (pts qs : list Point) (b : TLBounds) :
  Forall2 Point_equiv pts qs -> is_envelope pts b -> is_envelope qs b.
Proof.
  intro R. apply is_envelope_same_place.
  revert R. apply Forall2_impl. intros p q (Ex & Ey & _). split; assumption.
Qed.

(** Turning by an angle whose cosine is 1 and whose sine is 0 moves no point,
    so the bounds of the turned points are those of the points themselves,
    whether or not the bounds helper short-cuts the rotation 0. *)
Lemma rotWith_identity `{JSMath} (a c : vec) (r : Q) :
  cos r == 1 -> sin r == 0 -> vec_equiv (Vec.rotWith a c r) a.
Proof.
  intros C S. unfold vec_equiv, Vec.rotWith; simpl.
  rewrite C, S. split; ring.
Qed.

Lemma rotated_envelope_identity `{JSMath} (pts : list Point) (c : vec) (r : Q)
      (b : TLBounds) :
  cos r == 1 -> sin r == 0 ->
  is_envelope pts b ->
  is_envelope (map (fun q => let v := Vec.rotWith (xy q) c r in
                             mkPoint (fst v) (snd v) None) pts) b.
Proof.
  intros C S. apply is_envelope_same_place.
  apply Forall2_map_graph. intro p.
  destruct (rotWith_identity (xy p) c r C S) as [Ex Ey].
  split; simpl; symmetry; assumption.
Qed.

(** C6. For a shape with a non-empty points sequence, [getBounds] returns the
    axis-aligned bounding box of the local points translated by the shape's
    [point]: its corners are the least and the greatest coordinates of the
    points plus the coordinates of [point], its width and height the
    differences of these extremes.  For the points
    [[0,0,0.5],[10,0,0.5],[10,10,0.5]] that is the box
    [{minX:0, minY:0, maxX:10, maxY:10, width:10, height:10}] translated by
    [point]. *)
Theorem getBounds_translated_envelope `{JSMath} (shape : DrawShape) (c : Caches) :
  points shape <> [] ->
  caches_valid c ->
  exists b x0 y0 x1 y1,
    run (getBounds shape) c = Ok b /\
    lowest px (points shape) x0 /\ lowest py (points shape) y0 /\
    highest px (points shape) x1 /\ highest py (points shape) y1 /\
    minX b == x0 + fst (point shape) /\ minY b == y0 + snd (point shape) /\
    maxX b == x1 + fst (point shape) /\ maxY b == y1 + snd (point shape) /\
    width b == x1 - x0 /\ height b == y1 - y0 /\
    (Forall2 Point_equiv (points shape) cornerPoints ->
     Bounds_equiv b (mkBounds (0 + fst (point shape)) (0 + snd (point shape))
                              (10 + fst (point shape)) (10 + snd (point shape))
                              10 10)).
Proof.
  intros N V.
  destruct (getBoundsFromPoints_spec (points shape) N) as (lb & E & Env).
  exists (Utils.translateBounds lb (point shape)), (minX lb), (minY lb), (maxX lb), (maxY lb).
  rewrite (getBounds_run shape c V), E.
  pose proof Env as (Lx & Ly & Ux & Uy & W & Hh).
  cbn [result_map Utils.translateBounds minX minY maxX maxY width height].
  split; [reflexivity|].
  do 4 (split; [assumption|]).
  do 4 (split; [reflexivity|]).
  split; [exact W|]. split; [exact Hh|].
  intro R.
  assert (B : Bounds_equiv lb (mkBounds 0 0 10 10 10 10)).
  { apply (is_envelope_unique cornerPoints).
    - apply (is_envelope_equiv (points shape)); assumption.
    - exact (envelope_is_envelope (mkPoint 0 0 half)
               [mkPoint 10 0 half; mkPoint 10 10 half]). }
  destruct B as (B1 & B2 & B3 & B4 & B5 & B6).
  unfold Bounds_equiv, Utils.translateBounds. simpl in *.
  repeat split; lra.
Qed.

Lemma getBounds_translated_envelope_witness :
  exists b x0 y0 x1 y1,
    run (@getBounds sampleMath cornerShape) emptyCaches = Ok b /\
    lowest px cornerPoints x0 /\ lowest py cornerPoints y0 /\
    highest px cornerPoints x1 /\ highest py cornerPoints y1 /\
    minX b == x0 + 3 /\ minY b == y0 + 4 /\
    maxX b == x1 + 3 /\ maxY b == y1 + 4 /\
    width b == x1 - x0 /\ height b == y1 - y0 /\
    (Forall2 Point_equiv cornerPoints cornerPoints ->
     Bounds_equiv b (mkBounds (0 + 3) (0 + 4) (10 + 3) (10 + 4) 10 10)).
Proof.
  apply (@getBounds_translated_envelope sampleMath cornerShape emptyCaches).
  - discriminate.
  - fresh_caches.
Defined.

(** C5. For a shape whose rotation is 0, [getRotatedBounds] equals
    [getBounds]. *)
Theorem getRotatedBounds_unrotated `{JSMath} (shape : DrawShape) (c : Caches) :
  rotation shape == 0 ->
  caches_valid c ->
  run (getRotatedBounds shape) c = run (getBounds shape) c.
Proof.
  intros R V. rewrite (getBounds_run shape c V).
  unfold getRotatedBounds. rewrite bind_run. unfold lift, run at 1. simpl.
  rewrite (getBoundsFromPoints_unrotated _ _ R).
  rewrite getBoundsFromPoints_unrotated by reflexivity.
  destruct (points shape); reflexivity.
Qed.

Lemma getRotatedBounds_unrotated_witness :
  rotation cornerShape == 0 /\
  run (@getRotatedBounds sampleMath cornerShape) emptyCaches =
  run (@getBounds sampleMath cornerShape) emptyCaches.
Proof.
  split; [reflexivity|].
  apply (@getRotatedBounds_unrotated sampleMath cornerShape emptyCaches).
  - reflexivity.
  - fresh_caches.
Defined.

(** C8. [hitTest] answers true for every shape and every query point, so any
    point within the bounds area of the shape counts as a hit. *)
Theorem hitTest_permissive (shape : DrawShape) (query : vec) :
  hitTest shape query = true.
Proof. reflexivity. Qed.

(** ** Session completion *)


Lemma onSessionComplete_spec `{JSMath} (shape : DrawShape) (c : Caches) :
  caches_valid c ->
  points shape <> [] ->
  exists lb r,
    is_envelope (points shape) lb /\
    run (onSessionComplete shape) c = Ok r /\
    Forall2 (shifted_by (minX lb, minY lb)) (points shape) (new_points r) /\
    vec_equiv (new_point r) (Vec.add (point shape) (minX lb, minY lb)).
Proof.
  intros V N.
  destruct (getBoundsFromPoints_spec (points shape) N) as (lb & E & Env).
  unfold onSessionComplete. rewrite bind_run, (getBounds_run shape c V), E.
  simpl. exists lb. eexists. split; [exact Env|]. split; [reflexivity|].
  simpl. split.
  - apply Forall2_map_graph. intro p. unfold shifted_by; simpl.
    repeat split; lra.
  - unfold vec_equiv; simpl. split; lra.
Qed.









(** ** Resizing *)








(** ** Selection by a query box *)

(** C2 (amended). For a shape with rotation 0 and a non-empty points
    sequence, [hitTestBounds] returns a boolean, and it is true iff the query
    box fully contains the bounds of the shape, or the bounds contain the
    query box or overlap it and, in both of these cases, at least one stroke
    segment, between two consecutive points, has a point on the boundary of
    the query box taken in the local frame of the shape. *)
Theorem hitTestBounds_axis_aligned `{JSMath} (shape : DrawShape) (brush : TLBounds)
        (c : Caches) :
  rotation shape == 0 ->
  points shape <> [] ->
  caches_valid c ->
  exists b hit,
    run (getBounds shape) c = Ok b /\
    run (hitTestBounds shape brush) c = Ok hit /\
    (hit = true <->
     contains brush b \/
     ((contains b brush \/ overlap b brush) /\
      crosses (map xy (points shape))
              (Utils.translateBounds brush (Vec.neg (point shape))))).
Proof.
  intros R N V.
  destruct (getBoundsFromPoints_spec (points shape) N) as (lb & E & _).
  assert (Eb : run (getBounds shape) c = Ok (Utils.translateBounds lb (point shape))).
  { rewrite (getBounds_run shape c V), E. reflexivity. }
  exists (Utils.translateBounds lb (point shape)). eexists.
  split; [exact Eb|]. split.
  - unfold hitTestBounds. rewrite (Qeq_eq_bool _ _ R).
    rewrite bind_run, Eb. reflexivity.
  - rewrite orb_true_iff, andb_true_iff, orb_true_iff.
    rewrite !boundsContain_iff, boundsBounds_iff, polylineBounds_iff.
    reflexivity.
Qed.

Lemma hitTestBounds_axis_aligned_witness :
  exists b hit,
    run (@getBounds sampleMath cornerShape) emptyCaches = Ok b /\
    run (@hitTestBounds sampleMath cornerShape (mkBounds 5 6 20 20 15 14)) emptyCaches = Ok hit /\
    (hit = true <->
     contains (mkBounds 5 6 20 20 15 14) b \/
     ((contains b (mkBounds 5 6 20 20 15 14) \/ overlap b (mkBounds 5 6 20 20 15 14)) /\
      crosses (map xy cornerPoints)
              (Utils.translateBounds (mkBounds 5 6 20 20 15 14) (Vec.neg (3, 4))))).
Proof.
  apply (@hitTestBounds_axis_aligned sampleMath cornerShape (mkBounds 5 6 20 20 15 14)
           emptyCaches).
  - reflexivity.
  - discriminate.
  - fresh_caches.
Defined.

(** C2 as stated fails: a query box that lies inside the bounds of the
    corner stroke, away from both of its segments, is contained by the
    bounds, so the stated condition holds, and [hitTestBounds] answers
    false.  The segment that would close the stroke, from its last point
    (10, 10) back to its first (0, 0), does not reach the box either. *)
Lemma hitTestBounds_inner_counterexample :
  rotation cornerShape == 0 /\
  run (@hitTestBounds sampleMath cornerShape innerBrush) emptyCaches = Ok false /\
  ~ @hitTestBounds_as_specified sampleMath cornerShape innerBrush emptyCaches /\
  ~ (exists p,
        on_segment (10, 10) (0, 0) p /\
        on_boundary (Utils.translateBounds innerBrush (Vec.neg (point cornerShape))) p).
Proof.
  split; [reflexivity|]. split; [reflexivity|]. split.
  - intros (b & Eb & Claim).
    vm_compute in Eb. injection Eb as <-.
    assert (In : contains (mkBounds 3 4 13 14 10 10) innerBrush).
    { unfold contains; simpl. repeat split; reflexivity. }
    assert (T : run (@hitTestBounds sampleMath cornerShape innerBrush) emptyCaches = Ok true).
    { apply Claim. split.
      - right. right. exact In.
      - intros _ Out. contradiction. }
    vm_compute in T. discriminate T.
  - intros (p & (t & T0 & T1 & Ex & Ey) & B).
    unfold on_boundary, between, Utils.translateBounds, Vec.neg, innerBrush in B.
    cbn [fst snd minX minY maxX maxY point cornerShape shapeWith] in B, Ex, Ey.
    lra.
Qed.

(** ** Rendering *)

Lemma wm_get_set_same {K V : Type} (eq_dec : forall a b : K, {a = b} + {a <> b})
      (m : WeakMap K V) (k : K) (v : V) :
  wm_get eq_dec (wm_set m k v) k = Some v.
Proof.
  unfold wm_set; simpl. destruct (eq_dec k k); congruence.
Qed.

Lemma getBounds_pair `{JSMath} (shape : DrawShape) (c : Caches) (b : TLBounds) :
  run (getBounds shape) c = Ok b ->
  getBounds shape c = (Ok b, snd (getBounds shape c)).
Proof.
  unfold run. destruct (getBounds shape c) as [r c']. simpl. now intros ->.
Qed.

Lemma secondPressureIsHalf_iff (p1 : Point) :
  secondPressureIsHalf p1 = true <-> opt_equiv (pressure p1) (Some (1 # 2)).
Proof.
  unfold secondPressureIsHalf, opt_equiv.
  destruct (pressure p1) as [r|]; [apply Qeq_bool_iff|].
  split; [discriminate | contradiction].
Qed.

(** C7. For a finished shape ([isDone = true]) with fewer than three points,
    [render] returns a dot: a [circle] element whose radius is 0.32 times
    the [size] of the style, not a path.  The same holds for a finished
    shape with any number of points whose bounds are less than half the
    [size] wide and high.  A finished shape has points: it was created with
    one or two and its points were only appended to. *)
Theorem render_dot_fallback `{JSMath} `{PerfectFreehand} `{SvgPathBuilder}
        (shape : DrawShape) (info : TLRenderInfo) (c : Caches) :
  caches_valid c ->
  points shape <> [] ->
  isDone shape = true ->
  ((List.length (points shape) < 3)%nat \/
   exists b, run (getBounds shape) c = Ok b /\
             width b < size (style shape) / 2 /\
             height b < size (style shape) / 2) ->
  renders_dot shape info c.
Proof.
  intros V N D Small.
  destruct (getBoundsFromPoints_spec (points shape) N) as (lb & E & _).
  assert (Eb : run (getBounds shape) c = Ok (Utils.translateBounds lb (point shape))).
  { rewrite (getBounds_run shape c V), E. reflexivity. }
  set (b := Utils.translateBounds lb (point shape)) in *.
  assert (Cond : ((List.length (points shape) <=? 2)%nat ||
                  (Qltb (width b) (size (style shape) / 2) &&
                   Qltb (height b) (size (style shape) / 2))) && isDone shape = true).
  { rewrite D, andb_true_r. apply orb_true_iff.
    destruct Small as [L | (b' & Eb' & Lw & Lh)].
    - left. apply Nat.leb_le. lia.
    - right. rewrite Eb in Eb'. injection Eb' as <-.
      apply andb_true_iff. split; apply Qltb_lt; assumption. }
  unfold renders_dot, render. cbv zeta.
  rewrite bind_run, Eb. cbv beta. rewrite Cond.
  eexists. split; [reflexivity|]. split; [reflexivity|].
  left. reflexivity.
Qed.

Lemma render_dot_fallback_witness :
  @renders_dot sampleMath sampleFreehand sampleSvg tapShape lightMode emptyCaches.
Proof.
  apply (@render_dot_fallback sampleMath sampleFreehand sampleSvg tapShape lightMode
           emptyCaches).
  - fresh_caches.
  - discriminate.
  - reflexivity.
  - left. simpl. lia.
Defined.

Lemma render_outline_eq `{JSMath} `{PerfectFreehand} `{SvgPathBuilder}
      (shape : DrawShape) (info : TLRenderInfo) (c : Caches) (b : TLBounds) (p1 : Point) :
  run (getBounds shape) c = Ok b ->
  (2 < List.length (points shape))%nat ->
  nth_error (points shape) 1 = Some p1 ->
  (Qltb (width b) (size (style shape) / 2) &&
   Qltb (height b) (size (style shape) / 2)) && isDone shape = false ->
  let stroke := getStroke (skipn 2 (points shape))
                          (strokeOptions shape (secondPressureIsHalf p1)) in
  let c' := snd (getBounds shape c) in
  render shape info c =
  (Ok (pathElement (style shape)
                   (if isFilled (style shape) then color (style shape) else "none"%string)
                   (getSvgPathFromStroke stroke)),
   set_strokeCache (wm_set (strokeCache c') shape stroke) c').
Proof.
  intros Eb L N1 Cond stroke c'.
  assert (Cond' : ((List.length (points shape) <=? 2)%nat ||
                   (Qltb (width b) (size (style shape) / 2) &&
                    Qltb (height b) (size (style shape) / 2))) && isDone shape = false).
  { replace (List.length (points shape) <=? 2)%nat with false
      by (symmetry; apply Nat.leb_gt; lia).
    exact Cond. }
  assert (L' : (2 <? List.length (points shape))%nat = true) by (apply Nat.ltb_lt; lia).
  unfold render. cbv zeta. unfold bind at 1.
  rewrite (getBounds_pair shape c b Eb). fold c'.
  rewrite Cond', L', N1. reflexivity.
Qed.

(** C10 (amended). For a shape with more than two points that does not take
    the dot fallback (it is not finished, or its bounds are at least half
    the [size] wide or high), [render] returns the path of the outline that
    [getStroke] computes from [shape.points.slice(2)], the first two points
    being left out, under options taken from the style, whose
    [simulatePressure] flag is true exactly when the pressure of the second
    point equals 0.5 and whose [last] flag is [isDone]; the outline is
    stored in [strokeCache] under the shape. *)
Theorem render_outline_from_slice `{JSMath} `{PerfectFreehand} `{SvgPathBuilder}
        (shape : DrawShape) (info : TLRenderInfo) (c : Caches) :
  caches_valid c ->
  (2 < List.length (points shape))%nat ->
  (isDone shape = false \/
   exists b, run (getBounds shape) c = Ok b /\
             (size (style shape) / 2 <= width b \/ size (style shape) / 2 <= height b)) ->
  renders_outline shape info c.
Proof.
  intros V L Big.
  assert (N : points shape <> []).
  { destruct (points shape); [simpl in L; lia | discriminate]. }
  destruct (getBoundsFromPoints_spec (points shape) N) as (lb & E & _).
  assert (Eb : run (getBounds shape) c = Ok (Utils.translateBounds lb (point shape))).
  { rewrite (getBounds_run shape c V), E. reflexivity. }
  set (b := Utils.translateBounds lb (point shape)) in *.
  assert (N1 : exists p1, nth_error (points shape) 1 = Some p1).
  { destruct (points shape) as [|p0 [|p1 rest]]; simpl in L; try lia.
    exists p1. reflexivity. }
  destruct N1 as (p1 & N1).
  assert (Cond : (Qltb (width b) (size (style shape) / 2) &&
                  Qltb (height b) (size (style shape) / 2)) && isDone shape = false).
  { destruct Big as [D | (b' & Eb' & Wide)].
    - rewrite D. apply andb_false_r.
    - rewrite Eb in Eb'. injection Eb' as <-.
      apply andb_false_iff. left. apply andb_false_iff.
      destruct Wide as [W | W]; [left | right]; apply Qltb_ge; exact W. }
  pose proof (render_outline_eq shape info c b p1 Eb L N1 Cond) as R.
  cbv zeta in R.
  exists p1. eexists. exists (strokeOptions shape (secondPressureIsHalf p1)).
  split; [exact N1|].
  unfold run. rewrite R. simpl.
  split; [reflexivity|]. split; [reflexivity|]. split; [left; reflexivity|].
  split; [apply secondPressureIsHalf_iff|].
  split; [repeat split|].
  apply wm_get_set_same.
Qed.

Lemma render_outline_from_slice_witness :
  @renders_outline sampleMath sampleFreehand sampleSvg cornerShape lightMode emptyCaches.
Proof.
  apply (@render_outline_from_slice sampleMath sampleFreehand sampleSvg cornerShape
           lightMode emptyCaches).
  - fresh_caches.
  - simpl. lia.
  - right. eexists. split; [reflexivity|]. left. simpl. discriminate.
Defined.

(** C10 as stated fails: a finished stroke of three points whose bounds are
    1 by 1 under a [size] of 8 takes the dot fallback, so no outline is
    computed from its points. *)
Lemma render_tiny_counterexample :
  (2 < List.length (points tinyShape))%nat /\
  tag_of_result (run (@render sampleMath sampleFreehand sampleSvg tinyShape lightMode)
                     emptyCaches) = Some "circle"%string /\
  ~ @renders_outline sampleMath sampleFreehand sampleSvg tinyShape lightMode emptyCaches.
Proof.
  split; [simpl; lia|]. split; [reflexivity|].
  intros (p1 & e & o & _ & Run & T & _).
  vm_compute in Run. injection Run as <-. discriminate T.
Qed.

(** ** The indicator path *)

Lemma getSolidStrokePath_short `{PerfectFreehand} `{JSFormat} (shape : DrawShape) :
  (List.length (points shape) < 3)%nat ->
  getSolidStrokePath shape = Ok (trivialPath (points shape)).
Proof.
  intro L. unfold getSolidStrokePath, trivialPath.
  destruct (points shape) as [|p [|q [|r rest]]]; simpl in *; try reflexivity.
  lia.
Qed.

(** C9. For a shape with fewer than three points the indicator path is
    trivial and is produced without failing: a single move-to to the first
    point when there are one or two points, and the fixed path
    [M 0 0 L 0 0] when there are none. *)
Theorem renderIndicator_trivial `{PerfectFreehand} `{JSFormat}
        (shape : DrawShape) (c : Caches) :
  indicator_cache_valid c ->
  (List.length (points shape) < 3)%nat ->
  getSolidStrokePath shape = Ok (trivialPath (points shape)) /\
  run (renderIndicator shape) c =
  Ok (mkElement "path" [("d"%string, PStr (trivialPath (points shape)))]) /\
  (points shape = [] -> trivialPath (points shape) = "M 0 0 L 0 0"%string) /\
  (forall p rest,
      points shape = p :: rest ->
      trivialPath (points shape) =
      ("M " ++ numberToString (px p) ++ " " ++ numberToString (py p))%string).
Proof.
  intros V L.
  pose proof (getSolidStrokePath_short shape L) as G.
  split; [exact G|]. split.
  - unfold renderIndicator. rewrite bind_run.
    rewrite (getFromCache_run Points_eq_dec simplePathCache set_simplePathCache
               (points shape) (getSolidStrokePath shape) c (V shape)).
    rewrite G. reflexivity.
  - split.
    + intros ->. reflexivity.
    + intros p rest ->. reflexivity.
Qed.

Lemma renderIndicator_trivial_witness :
  @getSolidStrokePath sampleFreehand sampleFormat tapShape = Ok "M 0 0"%string /\
  run (@renderIndicator sampleFreehand sampleFormat emptyShape) emptyCaches =
  Ok (mkElement "path" [("d"%string, PStr "M 0 0 L 0 0"%string)]).
Proof.
  split.
  - apply (@renderIndicator_trivial sampleFreehand sampleFormat tapShape emptyCaches).
    + fresh_caches.
    + simpl. lia.
  - apply (@renderIndicator_trivial sampleFreehand sampleFormat emptyShape emptyCaches).
    + fresh_caches.
    + simpl. lia.
Defined.

(** ** Validity of the caches is an invariant of the methods *)

Section Invariant.

Context `{JSMath} `{PerfectFreehand} `{SvgPathBuilder} `{JSFormat}.

Lemma caches_valid_frame (c c' : Caches) :
  pointsBoundsCache c' = pointsBoundsCache c ->
  boundsCache c' = boundsCache c ->
  caches_valid c -> caches_valid c'.
Proof.
  intros E1 E2 [V1 V2]. split; intros k b; rewrite ?E1, ?E2; auto.
Qed.

Lemma indicator_valid_frame (c c' : Caches) :
  simplePathCache c' = simplePathCache c ->
  indicator_cache_valid c -> indicator_cache_valid c'.
Proof.
  intros E V sh d. rewrite E. apply V.
Qed.

Lemma getBounds_frame (shape : DrawShape) (c : Caches) :
  simplePathCache (snd (getBounds shape c)) = simplePathCache c.
Proof.
  rewrite getBounds_state.
  destruct (getFromCache_state Points_eq_dec pointsBoundsCache set_pointsBoundsCache
              (points shape) (Utils.getBoundsFromPoints (points shape) 0) c)
    as [-> | (v & _ & ->)]; reflexivity.
Qed.

Lemma getBounds_keeps_indicator_cache (shape : DrawShape) (c : Caches) :
  indicator_cache_valid c -> indicator_cache_valid (snd (getBounds shape c)).
Proof.
  apply indicator_valid_frame. apply getBounds_frame.
Qed.

Lemma render_valid (shape : DrawShape) (info : TLRenderInfo) (c : Caches) :
  caches_valid c -> caches_valid (snd (render shape info c)).
Proof.
  intro V. pose proof (getBounds_valid shape c V) as V'.
  unfold render. cbv zeta. unfold bind at 1.
  destruct (getBounds shape c) as [[b|e] c']; cbn [snd] in V'; [|exact V'].
  destruct (_ && isDone shape); [exact V'|].
  unfold bind.
  destruct (2 <? List.length (points shape))%nat; [|exact V'].
  destruct (nth_error (points shape) 1); [|exact V'].
  revert V'. apply caches_valid_frame; reflexivity.
Qed.

Lemma transform_valid (shape : DrawShape) (target : TLBounds)
      (info : TLTransformInfo) (c : Caches) :
  caches_valid c -> caches_valid (snd (transform shape target info c)).
Proof.
  intro V. unfold transform. cbv zeta. unfold bind at 1.
  assert (V' : caches_valid
                 (snd (Utils.getFromCache DrawShape_eq_dec boundsCache set_boundsCache
                         (initialShape info)
                         (Utils.getBoundsFromPoints (points (initialShape info)) 0) c))).
  { destruct (getFromCache_state DrawShape_eq_dec boundsCache set_boundsCache
                (initialShape info)
                (Utils.getBoundsFromPoints (points (initialShape info)) 0) c)
      as [-> | (v & Ev & ->)]; [assumption|].
    destruct V as [V1 V2]. split; simpl; [exact V1|].
    intros sh b. destruct (DrawShape_eq_dec sh (initialShape info)) as [-> | _].
    - intro E. injection E as <-. exact Ev.
    - apply V2. }
  destruct (Utils.getFromCache _ _ _ _ _ c) as [[ib|e] c']; cbn [snd] in V';
    [|exact V'].
  unfold bind, lift.
  destruct (Utils.getBoundsFromPoints (points shape) 0); exact V'.
Qed.

Lemma hitTestBounds_valid (shape : DrawShape) (brush : TLBounds) (c : Caches) :
  caches_valid c -> caches_valid (snd (hitTestBounds shape brush c)).
Proof.
  intro V. unfold hitTestBounds.
  destruct (Qeq_bool (rotation shape) 0).
  - pose proof (getBounds_valid shape c V) as V'. unfold bind.
    destruct (getBounds shape c) as [[b|e] c']; exact V'.
  - unfold bind at 1, getRotatedBounds, bind at 1, lift.
    destruct (Utils.getBoundsFromPoints (points shape) (rotation shape));
      simpl; [|exact V].
    unfold bind.
    match goal with
    | |- context [Utils.getFromCache ?d ?g ?s ?k ?n c] =>
        destruct (getFromCache_state d g s k n c) as [S | (v & _ & S)];
        destruct (Utils.getFromCache d g s k n c) as [[r|e] c']
    end; simpl in S |- *; subst c'; try exact V;
      revert V; apply caches_valid_frame; reflexivity.
Qed.

Lemma getSolidStrokePath_points (a b : DrawShape) :
  points a = points b -> getSolidStrokePath a = getSolidStrokePath b.
Proof.
  intro E. unfold getSolidStrokePath. now rewrite E.
Qed.

Lemma renderIndicator_valid (shape : DrawShape) (c : Caches) :
  indicator_cache_valid c -> indicator_cache_valid (snd (renderIndicator shape c)).
Proof.
  intro V. unfold renderIndicator, bind.
  destruct (getFromCache_state Points_eq_dec simplePathCache set_simplePathCache
              (points shape) (getSolidStrokePath shape) c) as [S | (v & Ev & S)];
    destruct (Utils.getFromCache Points_eq_dec simplePathCache set_simplePathCache
                (points shape) (getSolidStrokePath shape) c) as [[r|e] c'];
    simpl in S |- *; subst c'; try exact V.
  - intros sh d. simpl.
    destruct (Points_eq_dec (points sh) (points shape)) as [E | _].
    + intro G. injection G as <-.
      rewrite (getSolidStrokePath_points sh shape E). exact Ev.
    + apply V.
  - intros sh d. simpl.
    destruct (Points_eq_dec (points sh) (points shape)) as [E | _].
    + intro G. injection G as <-.
      rewrite (getSolidStrokePath_points sh shape E). exact Ev.
    + apply V.
Qed.

End Invariant.

(** ** Runs on concrete strokes *)

(** The end-to-end example of the spec: a query box around the whole corner
    stroke selects it. *)
Example hitTestBounds_containing_box :
  run (@hitTestBounds sampleMath (shapeWith (0, 0) cornerPoints true)
         (mkBounds (-5) (-5) 15 15 20 20)) emptyCaches = Ok true.
Proof. reflexivity. Qed.

(** A query box across the vertical segment of the corner stroke selects it,
    although neither box contains the other. *)
Example hitTestBounds_crossing_box :
  run (@hitTestBounds sampleMath (shapeWith (0, 0) cornerPoints true)
         (mkBounds 8 4 12 6 4 2)) emptyCaches = Ok true.
Proof. reflexivity. Qed.

(** The second call of [getBounds] on the same points is served from the
    cache and leaves it as it is. *)
Example getBounds_cached :
  let c1 := snd (@getBounds sampleMath cornerShape emptyCaches) in
  pointsBoundsCache c1 = [(cornerPoints, mkBounds 0 0 10 10 10 10)] /\
  @getBounds sampleMath cornerShape c1 = (Ok (mkBounds 3 4 13 14 10 10), c1).
Proof. split; reflexivity. Qed.

(** A stroke that has just been started renders as a path without data. *)
Example render_started_stroke :
  tag_of_result
    (run (@render sampleMath sampleFreehand sampleSvg defaultProps lightMode) emptyCaches)
  = Some "path"%string /\
  exists e,
    run (@render sampleMath sampleFreehand sampleSvg defaultProps lightMode) emptyCaches
    = Ok e /\ In ("d"%string, PStr ""%string) (props e).
Proof.
  split; [reflexivity|]. eexists. split; [reflexivity|]. left. reflexivity.
Qed.

(** Re-origining the draft stroke: its points move by (3, 6) and its point
    from (1, 2) to (4, 8). *)
Example onSessionComplete_draft :
  run (@onSessionComplete sampleMath draftShape) emptyCaches =
  Ok (mkPartial [mkPoint 0 2 half; mkPoint 2 0 half; mkPoint 1 3 half] (4, 8)).
Proof. vm_compute. reflexivity. Qed.

(** ** Runs in doubles *)

(** On the stroke that shows the rounding of [onSessionComplete], the second
    pass agrees with the first within 1e-12, and the least x that the first
    pass leaves is within 1e-12 of 0. *)
Example onSessionComplete_drift_is_small :
  exists r1 r2 b,
    Double.onSessionComplete Double.driftShape = Ok r1 /\
    Double.onSessionComplete (Double.applyPartial Double.driftShape r1) = Ok r2 /\
    Double.getBoundsFromPoints (Double.new_points r1) = Ok b /\
    Double.alike Double.fine r1 r2 = true /\
    Double.near Double.fine (Double.minX b) PrimFloat.zero = true.
Proof.
  do 3 eexists. split; [vm_compute; reflexivity|].
  split; [vm_compute; reflexivity|].
  split; [vm_compute; reflexivity|].
  split; vm_compute; reflexivity.
Qed.

(** Resized to the size it has, a stroke 49 wide comes back with the x
    coordinate [49 * (1 / 49)], which is 0.9999999999999999 and not 1; the
    result agrees with the initial points within 1e-12, and its bounds,
    translated by its point, with the target. *)
Example transform_same_size_is_close :
  exists r q b,
    Double.transform Double.steepShape Double.steepTarget
                     (Double.unflipped Double.steepShape) = Ok r /\
    nth_error (Double.new_points r) 1 = Some q /\
    PrimFloat.eqb (Double.px q) PrimFloat.one = false /\
    Double.alike Double.fine r
      (Double.mkPartial (Double.points Double.steepShape)
                        (Double.minX Double.steepTarget, Double.minY Double.steepTarget))
    = true /\
    Double.placed r = Ok b /\
    Double.agree Double.fine b Double.steepTarget = true.
Proof.
  do 3 eexists. split; [vm_compute; reflexivity|].
  split; [vm_compute; reflexivity|].
  split; [vm_compute; reflexivity|].
  split; [vm_compute; reflexivity|].
  split; vm_compute; reflexivity.
Qed.

(** Flipped and not, the x coordinates of a point add up to the target
    width 13.5 only up to rounding: 9.000000000000002 + 4.5. *)
Example transform_flip_is_close :
  exists r r' q q',
    Double.transform Double.thirdsShape Double.wideTarget
      (Double.resizing Double.thirdsShape Double.flipX PrimFloat.one) = Ok r /\
    Double.transform Double.thirdsShape Double.wideTarget
      (Double.unflipped Double.thirdsShape) = Ok r' /\
    nth_error (Double.new_points r) 1 = Some q /\
    nth_error (Double.new_points r') 1 = Some q' /\
    PrimFloat.eqb (PrimFloat.add (Double.px q) (Double.px q'))
                  (Double.width Double.wideTarget) = false /\
    Double.near Double.fine (PrimFloat.add (Double.px q) (Double.px q'))
                (Double.width Double.wideTarget) = true.
Proof.
  do 4 eexists. split; [vm_compute; reflexivity|].
  split; [vm_compute; reflexivity|].
  split; [vm_compute; reflexivity|].
  split; [vm_compute; reflexivity|].
  split; vm_compute; reflexivity.
Qed.

(** Resizing in two steps and resizing at once agree within 1e-12, not to
    the last digit: the second point ends at y = 0.4081632653061224 and at
    y = 0.40816326530612246. *)
Example transform_twice_is_close :
  exists r1 r2 rd q qd,
    Double.transform Double.bentShape Double.firstTarget
      (Double.unflipped Double.bentShape) = Ok r1 /\
    Double.transform (Double.applyPartial Double.bentShape r1) Double.unitTarget
      (Double.unflipped (Double.applyPartial Double.bentShape r1)) = Ok r2 /\
    Double.transform Double.bentShape Double.unitTarget
      (Double.unflipped Double.bentShape) = Ok rd /\
    nth_error (Double.new_points r2) 1 = Some q /\
    nth_error (Double.new_points rd) 1 = Some qd /\
    PrimFloat.eqb (Double.py q) (Double.py qd) = false /\
    Double.alike Double.fine r2 rd = true.
Proof.
  do 5 eexists. split; [vm_compute; reflexivity|].
  split; [vm_compute; reflexivity|].
  split; [vm_compute; reflexivity|].
  split; [vm_compute; reflexivity|].
  split; [vm_compute; reflexivity|].
  split; vm_compute; reflexivity.
Qed.

(** Completing the session keeps the bounds within 1e-12, not to the last
    digit: their maxX is -1.8 before and -1.7999999999999998 after. *)
Example onSessionComplete_bounds_are_close :
  exists r b b',
    Double.onSessionComplete Double.wanderShape = Ok r /\
    Double.getBounds Double.wanderShape = Ok b /\
    Double.getBounds (Double.applyPartial Double.wanderShape r) = Ok b' /\
    PrimFloat.eqb (Double.maxX b) (Double.maxX b') = false /\
    Double.agree Double.fine b b' = true.
Proof.
  do 3 eexists. split; [vm_compute; reflexivity|].
  split; [vm_compute; reflexivity|].
  split; [vm_compute; reflexivity|].
  split; vm_compute; reflexivity.
Qed.

(** Completing the session and then resizing fits the target within 1e-12,
    not to the last digit: the bounds of the result start at
    y = -8.8e-16. *)
Example session_then_transform_is_close :
  exists r rt b,
    Double.onSessionComplete Double.strayShape = Ok r /\
    Double.transform (Double.applyPartial Double.strayShape r) Double.squareTarget
      (Double.unflipped (Double.applyPartial Double.strayShape r)) = Ok rt /\
    Double.placed rt = Ok b /\
    PrimFloat.eqb (Double.minY b) PrimFloat.zero = false /\
    Double.agree Double.fine b Double.squareTarget = true.
Proof.
  do 3 eexists. split; [vm_compute; reflexivity|].
  split; [vm_compute; reflexivity|].
  split; [vm_compute; reflexivity|].
  split; vm_compute; reflexivity.
Qed.

(** * Further properties of the class *)

(** ** The caches are transparent *)

Section Transparency.

Context `{JSMath} `{PerfectFreehand} `{SvgPathBuilder} `{JSFormat}.

Variable P : Caches -> Prop.
Hypothesis P_fresh : P emptyCaches.

Lemma keeps_ret {A : Type} (a : A) : keeps P (ret a).
Proof. intros c Pc. exact Pc. Qed.

Lemma keeps_lift {A : Type} (r : result A) : keeps P (lift r).
Proof. intros c Pc. exact Pc. Qed.

Lemma keeps_bind {A B : Type} (m : M A) (k : A -> M B) :
  keeps P m -> (forall a, keeps P (k a)) -> keeps P (bind m k).
Proof.
  intros Km Kk c Pc. specialize (Km c Pc). unfold bind.
  destruct (m c) as [[a|e] c']; cbn [snd] in Km |- *; [now apply Kk | exact Km].
Qed.

Lemma stable_ret {A : Type} (a : A) : stable P (ret a).
Proof. intros c Pc. reflexivity. Qed.

Lemma stable_lift {A : Type} (r : result A) : stable P (lift r).
Proof. intros c Pc. reflexivity. Qed.

Lemma stable_bind {A B : Type} (m : M A) (k : A -> M B) :
  keeps P m -> stable P m -> (forall a, stable P (k a)) -> stable P (bind m k).
Proof.
  intros Km Sm Sk c Pc. rewrite !bind_run, (Sm c Pc).
  destruct (run m emptyCaches) as [a|e]; [|reflexivity].
  rewrite (Sk a _ (Km c Pc)). symmetry. apply Sk. apply Km. exact P_fresh.
Qed.

Lemma getFromCache_keeps {K V : Type} (eq_dec : forall a b : K, {a = b} + {a <> b})
      (get : Caches -> WeakMap K V) (set : WeakMap K V -> Caches -> Caches)
      (k : K) (getNext : result V) :
  (forall c v, P c -> getNext = Ok v -> P (set (wm_set (get c) k v) c)) ->
  keeps P (Utils.getFromCache eq_dec get set k getNext).
Proof.
  intros Ins c Pc.
  destruct (getFromCache_state eq_dec get set k getNext c) as [-> | (v & Ev & ->)];
    [exact Pc | now apply Ins].
Qed.

Lemma getFromCache_stable {K V : Type} (eq_dec : forall a b : K, {a = b} + {a <> b})
      (get : Caches -> WeakMap K V) (set : WeakMap K V -> Caches -> Caches)
      (k : K) (getNext : result V) :
  get emptyCaches = [] ->
  (forall c v, P c -> wm_get eq_dec (get c) k = Some v -> getNext = Ok v) ->
  stable P (Utils.getFromCache eq_dec get set k getNext).
Proof.
  intros Fresh Valid c Pc.
  rewrite (getFromCache_run eq_dec get set k getNext c (fun v => Valid c v Pc)).
  symmetry. apply getFromCache_run. rewrite Fresh. discriminate.
Qed.

End Transparency.

Section ValidCaches.

Context `{JSMath} `{PerfectFreehand} `{SvgPathBuilder} `{JSFormat}.

Lemma all_caches_valid_fresh : all_caches_valid emptyCaches.
Proof.
  split; [apply emptyCaches_valid|]. split; intros sh d G; discriminate G.
Qed.

Lemma pointsBounds_lookup_keeps (pts : list Point) :
  keeps all_caches_valid
        (Utils.getFromCache Points_eq_dec pointsBoundsCache set_pointsBoundsCache
           pts (Utils.getBoundsFromPoints pts 0)).
Proof.
  apply getFromCache_keeps. intros c v ([V1 V2] & Vi & Vr) Ev.
  split; [split|split]; simpl; try assumption.
  intros k b. destruct (Points_eq_dec k pts) as [-> | _]; [|apply V1].
  intro E. injection E as <-. exact Ev.
Qed.

Lemma pointsBounds_lookup_stable (pts : list Point) :
  stable all_caches_valid
         (Utils.getFromCache Points_eq_dec pointsBoundsCache set_pointsBoundsCache
            pts (Utils.getBoundsFromPoints pts 0)).
Proof.
  apply getFromCache_stable; [reflexivity|].
  intros c v ([V1 _] & _) G. now apply V1.
Qed.

Lemma bounds_lookup_keeps (sh : DrawShape) :
  keeps all_caches_valid
        (Utils.getFromCache DrawShape_eq_dec boundsCache set_boundsCache
           sh (Utils.getBoundsFromPoints (points sh) 0)).
Proof.
  apply getFromCache_keeps. intros c v ([V1 V2] & Vi & Vr) Ev.
  split; [split|split]; simpl; try assumption.
  intros k b. destruct (DrawShape_eq_dec k sh) as [-> | _]; [|apply V2].
  intro E. injection E as <-. exact Ev.
Qed.

Lemma bounds_lookup_stable (sh : DrawShape) :
  stable all_caches_valid
         (Utils.getFromCache DrawShape_eq_dec boundsCache set_boundsCache
            sh (Utils.getBoundsFromPoints (points sh) 0)).
Proof.
  apply getFromCache_stable; [reflexivity|].
  intros c v ([_ V2] & _) G. now apply V2.
Qed.

Lemma simplePath_lookup_keeps (shape : DrawShape) :
  keeps all_caches_valid
        (Utils.getFromCache Points_eq_dec simplePathCache set_simplePathCache
           (points shape) (getSolidStrokePath shape)).
Proof.
  apply getFromCache_keeps. intros c v (Vb & Vi & Vr) Ev.
  split; [exact Vb|]. split; [|exact Vr].
  intros sh d. simpl.
  destruct (Points_eq_dec (points sh) (points shape)) as [E | _]; [|apply Vi].
  intro G. injection G as <-.
  rewrite (getSolidStrokePath_points sh shape E). exact Ev.
Qed.

Lemma simplePath_lookup_stable (shape : DrawShape) :
  stable all_caches_valid
         (Utils.getFromCache Points_eq_dec simplePathCache set_simplePathCache
            (points shape) (getSolidStrokePath shape)).
Proof.
  apply getFromCache_stable; [reflexivity|].
  intros c v (_ & Vi & _) G. now apply Vi.
Qed.

Lemma rotated_lookup_keeps (shape : DrawShape) :
  keeps all_caches_valid
        (Utils.getFromCache DrawShape_eq_dec rotatedCache set_rotatedCache
           shape (rotatedPoints shape)).
Proof.
  apply getFromCache_keeps. intros c v (Vb & Vi & Vr) Ev.
  split; [exact Vb|]. split; [exact Vi|].
  intros sh r. simpl.
  destruct (DrawShape_eq_dec sh shape) as [-> | _]; [|apply Vr].
  intro G. injection G as <-. exact Ev.
Qed.

Lemma rotated_lookup_stable (shape : DrawShape) :
  stable all_caches_valid
         (Utils.getFromCache DrawShape_eq_dec rotatedCache set_rotatedCache
            shape (rotatedPoints shape)).
Proof.
  apply getFromCache_stable; [reflexivity|].
  intros c v (_ & _ & Vr) G. now apply Vr.
Qed.

Lemma getBounds_keeps (shape : DrawShape) : keeps all_caches_valid (getBounds shape).
Proof.
  apply keeps_bind; [apply pointsBounds_lookup_keeps | intro; apply keeps_ret].
Qed.

Lemma getBounds_stable (shape : DrawShape) : stable all_caches_valid (getBounds shape).
Proof.
  apply stable_bind;
    [apply all_caches_valid_fresh | apply pointsBounds_lookup_keeps
     | apply pointsBounds_lookup_stable | intro; apply stable_ret].
Qed.

Lemma getRotatedBounds_keeps (shape : DrawShape) :
  keeps all_caches_valid (getRotatedBounds shape).
Proof.
  apply keeps_bind; [apply keeps_lift | intro; apply keeps_ret].
Qed.

Lemma getRotatedBounds_stable (shape : DrawShape) :
  stable all_caches_valid (getRotatedBounds shape).
Proof.
  apply stable_bind;
    [apply all_caches_valid_fresh | apply keeps_lift | apply stable_lift
     | intro; apply stable_ret].
Qed.

Lemma getCenter_keeps (shape : DrawShape) : keeps all_caches_valid (getCenter shape).
Proof.
  apply keeps_bind; [apply getBounds_keeps | intro; apply keeps_ret].
Qed.

Lemma getCenter_stable (shape : DrawShape) : stable all_caches_valid (getCenter shape).
Proof.
  apply stable_bind;
    [apply all_caches_valid_fresh | apply getBounds_keeps | apply getBounds_stable
     | intro; apply stable_ret].
Qed.

Lemma hitTestBounds_keeps (shape : DrawShape) (brush : TLBounds) :
  keeps all_caches_valid (hitTestBounds shape brush).
Proof.
  unfold hitTestBounds. destruct (Qeq_bool (rotation shape) 0).
  - apply keeps_bind; [apply getBounds_keeps | intro; apply keeps_ret].
  - apply keeps_bind; [apply getRotatedBounds_keeps | intro].
    apply keeps_bind; [apply rotated_lookup_keeps | intro; apply keeps_ret].
Qed.

Lemma hitTestBounds_stable (shape : DrawShape) (brush : TLBounds) :
  stable all_caches_valid (hitTestBounds shape brush).
Proof.
  pose proof all_caches_valid_fresh as F.
  unfold hitTestBounds. destruct (Qeq_bool (rotation shape) 0).
  - apply stable_bind;
      [exact F | apply getBounds_keeps | apply getBounds_stable
       | intro; apply stable_ret].
  - apply stable_bind;
      [exact F | apply getRotatedBounds_keeps | apply getRotatedBounds_stable | intro].
    apply stable_bind;
      [exact F | apply rotated_lookup_keeps | apply rotated_lookup_stable
       | intro; apply stable_ret].
Qed.

Lemma transform_keeps (shape : DrawShape) (target : TLBounds) (info : TLTransformInfo) :
  keeps all_caches_valid (transform shape target info).
Proof.
  unfold transform. cbv zeta.
  apply keeps_bind; [apply bounds_lookup_keeps | intro].
  apply keeps_bind; [apply keeps_lift | intro; apply keeps_ret].
Qed.

Lemma transform_stable (shape : DrawShape) (target : TLBounds) (info : TLTransformInfo) :
  stable all_caches_valid (transform shape target info).
Proof.
  pose proof all_caches_valid_fresh as F.
  unfold transform. cbv zeta.
  apply stable_bind;
    [exact F | apply bounds_lookup_keeps | apply bounds_lookup_stable | intro].
  apply stable_bind;
    [exact F | apply keeps_lift | apply stable_lift | intro; apply stable_ret].
Qed.

Lemma onSessionComplete_keeps (shape : DrawShape) :
  keeps all_caches_valid (onSessionComplete shape).
Proof.
  unfold onSessionComplete.
  apply keeps_bind; [apply getBounds_keeps | intro b].
  destruct (Vec.sub (minX b, minY b) (point shape)). apply keeps_ret.
Qed.

Lemma onSessionComplete_stable (shape : DrawShape) :
  stable all_caches_valid (onSessionComplete shape).
Proof.
  unfold onSessionComplete.
  apply stable_bind;
    [apply all_caches_valid_fresh | apply getBounds_keeps | apply getBounds_stable
     | intro b].
  destruct (Vec.sub (minX b, minY b) (point shape)). apply stable_ret.
Qed.

Lemma strokeCache_set_keeps (shape : DrawShape) (stroke : list vec) :
  keeps all_caches_valid
        (fun c : Caches =>
           (Ok tt, set_strokeCache (wm_set (strokeCache c) shape stroke) c)).
Proof.
  intros c (Vb & Vi & Vr). split; [|split]; assumption.
Qed.

Lemma render_keeps (shape : DrawShape) (info : TLRenderInfo) :
  keeps all_caches_valid (render shape info).
Proof.
  unfold render. cbv zeta.
  apply keeps_bind; [apply getBounds_keeps | intro b].
  destruct (_ && isDone shape); [apply keeps_ret|].
  apply keeps_bind; [|intro; apply keeps_ret].
  destruct (2 <? List.length (points shape))%nat; [|apply keeps_ret].
  destruct (nth_error (points shape) 1); [|apply keeps_lift].
  apply keeps_bind; [apply strokeCache_set_keeps | intro; apply keeps_ret].
Qed.

Lemma render_stable (shape : DrawShape) (info : TLRenderInfo) :
  stable all_caches_valid (render shape info).
Proof.
  pose proof all_caches_valid_fresh as F.
  unfold render. cbv zeta.
  apply stable_bind;
    [exact F | apply getBounds_keeps | apply getBounds_stable | intro b].
  destruct (_ && isDone shape); [apply stable_ret|].
  apply stable_bind; [exact F | | | intro; apply stable_ret].
  - destruct (2 <? List.length (points shape))%nat; [|apply keeps_ret].
    destruct (nth_error (points shape) 1); [|apply keeps_lift].
    apply keeps_bind; [apply strokeCache_set_keeps | intro; apply keeps_ret].
  - destruct (2 <? List.length (points shape))%nat; [|apply stable_ret].
    destruct (nth_error (points shape) 1); [|apply stable_lift].
    apply stable_bind;
      [exact F | apply strokeCache_set_keeps | | intro; apply stable_ret].
    intros c Pc. reflexivity.
Qed.

Lemma renderIndicator_keeps (shape : DrawShape) :
  keeps all_caches_valid (renderIndicator shape).
Proof.
  apply keeps_bind; [apply simplePath_lookup_keeps | intro; apply keeps_ret].
Qed.

Lemma renderIndicator_stable (shape : DrawShape) :
  stable all_caches_valid (renderIndicator shape).
Proof.
  apply stable_bind;
    [apply all_caches_valid_fresh | apply simplePath_lookup_keeps
     | apply simplePath_lookup_stable | intro; apply stable_ret].
Qed.

Lemma perform_keeps (k : Call) : keeps all_caches_valid (perform k).
Proof.
  destruct k; unfold perform, answering;
    (apply keeps_bind; [|intro; apply keeps_ret]).
  - apply getBounds_keeps.
  - apply getRotatedBounds_keeps.
  - apply getCenter_keeps.
  - apply hitTestBounds_keeps.
  - apply transform_keeps.
  - apply transform_keeps.
  - apply onSessionComplete_keeps.
  - apply render_keeps.
  - apply renderIndicator_keeps.
Qed.

Lemma perform_stable (k : Call) : stable all_caches_valid (perform k).
Proof.
  destruct k; unfold perform, answering;
    (apply stable_bind;
     [apply all_caches_valid_fresh | | | intro; apply stable_ret]).
  - apply getBounds_keeps.
  - apply getBounds_stable.
  - apply getRotatedBounds_keeps.
  - apply getRotatedBounds_stable.
  - apply getCenter_keeps.
  - apply getCenter_stable.
  - apply hitTestBounds_keeps.
  - apply hitTestBounds_stable.
  - apply transform_keeps.
  - apply transform_stable.
  - apply transform_keeps.
  - apply transform_stable.
  - apply onSessionComplete_keeps.
  - apply onSessionComplete_stable.
  - apply render_keeps.
  - apply render_stable.
  - apply renderIndicator_keeps.
  - apply renderIndicator_stable.
Qed.

Lemma afterAll_valid (calls : list Call) (c : Caches) :
  all_caches_valid c -> all_caches_valid (afterAll calls c).
Proof.
  revert c. induction calls as [|k calls IH]; intros c V; simpl; [exact V|].
  apply IH. now apply perform_keeps.
Qed.

(** X1. Whatever methods were called on a fresh instance, with whatever
    arguments and in whatever order, every entry of the bounds caches, of
    the rotated-points cache and of the indicator-path cache is the value
    that its key yields when computed afresh. *)
Theorem caches_stay_valid (calls : list Call) :
  all_caches_valid (afterAll calls emptyCaches).
Proof.
  apply afterAll_valid. apply all_caches_valid_fresh.
Qed.

(** X2. Memoization is transparent: a method called after any sequence of
    earlier calls returns what it returns on a fresh instance, be it a value
    or an exception. *)
Theorem answers_ignore_history (calls : list Call) (k : Call) :
  run (perform k) (afterAll calls emptyCaches) = run (perform k) emptyCaches.
Proof.
  apply perform_stable. apply afterAll_valid. apply all_caches_valid_fresh.
Qed.

End ValidCaches.

(** ** Memoization *)

(** X3. [getBounds] keeps the local bounds of a shape in [pointsBoundsCache]
    under the points of the shape.  A call that finds no entry for them
    stores the bounds it computes and touches no other cache; a call that
    finds an entry returns it translated by [point], whatever it holds, and
    changes no cache.  So the call after the first is answered from the
    entry that the first one made. *)
Theorem getBounds_memoized `{JSMath} (shape : DrawShape) (c : Caches) (lb : TLBounds) :
  Utils.getBoundsFromPoints (points shape) 0 = Ok lb ->
  wm_get Points_eq_dec (pointsBoundsCache c) (points shape) = None ->
  let c1 := snd (getBounds shape c) in
  run (getBounds shape) c = Ok (Utils.translateBounds lb (point shape)) /\
  wm_get Points_eq_dec (pointsBoundsCache c1) (points shape) = Some lb /\
  (rotatedCache c1 = rotatedCache c /\ drawPathCache c1 = drawPathCache c /\
   simplePathCache c1 = simplePathCache c /\ strokeCache c1 = strokeCache c /\
   boundsCache c1 = boundsCache c) /\
  getBounds shape c1 = (Ok (Utils.translateBounds lb (point shape)), c1) /\
  (forall v c',
      wm_get Points_eq_dec (pointsBoundsCache c') (points shape) = Some v ->
      getBounds shape c' = (Ok (Utils.translateBounds v (point shape)), c')).
Proof.
  intros E G c1.
  assert (Hit : forall v c',
             wm_get Points_eq_dec (pointsBoundsCache c') (points shape) = Some v ->
             getBounds shape c' = (Ok (Utils.translateBounds v (point shape)), c')).
  { intros v c' G'. unfold getBounds, bind, Utils.getFromCache. now rewrite G'. }
  assert (Miss : getBounds shape c =
                 (Ok (Utils.translateBounds lb (point shape)),
                  set_pointsBoundsCache
                    (wm_set (pointsBoundsCache c) (points shape) lb) c)).
  { unfold getBounds, bind, Utils.getFromCache. now rewrite G, E. }
  assert (Stored : wm_get Points_eq_dec (pointsBoundsCache c1) (points shape) = Some lb).
  { unfold c1. rewrite Miss. cbn [snd set_pointsBoundsCache pointsBoundsCache].
    apply wm_get_set_same. }
  split; [unfold run; now rewrite Miss|].
  split; [exact Stored|].
  split; [unfold c1; rewrite Miss; repeat split|].
  split; [apply Hit; exact Stored | exact Hit].
Qed.

Lemma getBounds_memoized_witness :
  let c1 := snd (@getBounds sampleMath cornerShape emptyCaches) in
  run (@getBounds sampleMath cornerShape) emptyCaches =
  Ok (Utils.translateBounds (mkBounds 0 0 10 10 10 10) (3, 4)) /\
  wm_get Points_eq_dec (pointsBoundsCache c1) cornerPoints =
  Some (mkBounds 0 0 10 10 10 10) /\
  (rotatedCache c1 = [] /\ drawPathCache c1 = [] /\ simplePathCache c1 = [] /\
   strokeCache c1 = [] /\ boundsCache c1 = []) /\
  @getBounds sampleMath cornerShape c1 =
  (Ok (Utils.translateBounds (mkBounds 0 0 10 10 10 10) (3, 4)), c1) /\
  (forall v c',
      wm_get Points_eq_dec (pointsBoundsCache c') cornerPoints = Some v ->
      @getBounds sampleMath cornerShape c' = (Ok (Utils.translateBounds v (3, 4)), c')).
Proof.
  apply (@getBounds_memoized sampleMath cornerShape emptyCaches
           (mkBounds 0 0 10 10 10 10)).
  - reflexivity.
  - reflexivity.
Defined.

(** X4. [renderIndicator] keeps the indicator path of a shape in
    [simplePathCache] under the points of the shape.  A call that finds no
    entry for them stores the path that [getSolidStrokePath] builds and
    touches no other cache; a call that finds an entry returns it as the
    [d] of the path element, whatever it holds, and changes no cache.  So
    the call after the first is answered from the entry that the first one
    made. *)
Theorem renderIndicator_memoized `{PerfectFreehand} `{JSFormat}
        (shape : DrawShape) (c : Caches) (d : string) :
  getSolidStrokePath shape = Ok d ->
  wm_get Points_eq_dec (simplePathCache c) (points shape) = None ->
  let c1 := snd (renderIndicator shape c) in
  run (renderIndicator shape) c = Ok (mkElement "path" [("d"%string, PStr d)]) /\
  wm_get Points_eq_dec (simplePathCache c1) (points shape) = Some d /\
  (pointsBoundsCache c1 = pointsBoundsCache c /\ rotatedCache c1 = rotatedCache c /\
   drawPathCache c1 = drawPathCache c /\ strokeCache c1 = strokeCache c /\
   boundsCache c1 = boundsCache c) /\
  renderIndicator shape c1 = (Ok (mkElement "path" [("d"%string, PStr d)]), c1) /\
  (forall v c',
      wm_get Points_eq_dec (simplePathCache c') (points shape) = Some v ->
      renderIndicator shape c' = (Ok (mkElement "path" [("d"%string, PStr v)]), c')).
Proof.
  intros E G c1.
  assert (Hit : forall v c',
             wm_get Points_eq_dec (simplePathCache c') (points shape) = Some v ->
             renderIndicator shape c' =
             (Ok (mkElement "path" [("d"%string, PStr v)]), c')).
  { intros v c' G'. unfold renderIndicator, bind, Utils.getFromCache. now rewrite G'. }
  assert (Miss : renderIndicator shape c =
                 (Ok (mkElement "path" [("d"%string, PStr d)]),
                  set_simplePathCache
                    (wm_set (simplePathCache c) (points shape) d) c)).
  { unfold renderIndicator, bind, Utils.getFromCache. now rewrite G, E. }
  assert (Stored : wm_get Points_eq_dec (simplePathCache c1) (points shape) = Some d).
  { unfold c1. rewrite Miss. cbn [snd set_simplePathCache simplePathCache].
    apply wm_get_set_same. }
  split; [unfold run; now rewrite Miss|].
  split; [exact Stored|].
  split; [unfold c1; rewrite Miss; repeat split|].
  split; [apply Hit; exact Stored | exact Hit].
Qed.

Lemma renderIndicator_memoized_witness :
  let c1 := snd (@renderIndicator sampleFreehand sampleFormat tapShape emptyCaches) in
  run (@renderIndicator sampleFreehand sampleFormat tapShape) emptyCaches =
  Ok (mkElement "path" [("d"%string, PStr "M 0 0"%string)]) /\
  wm_get Points_eq_dec (simplePathCache c1) (points tapShape) = Some "M 0 0"%string /\
  (pointsBoundsCache c1 = [] /\ rotatedCache c1 = [] /\ drawPathCache c1 = [] /\
   strokeCache c1 = [] /\ boundsCache c1 = []) /\
  @renderIndicator sampleFreehand sampleFormat tapShape c1 =
  (Ok (mkElement "path" [("d"%string, PStr "M 0 0"%string)]), c1) /\
  (forall v c',
      wm_get Points_eq_dec (simplePathCache c') (points tapShape) = Some v ->
      @renderIndicator sampleFreehand sampleFormat tapShape c' =
      (Ok (mkElement "path" [("d"%string, PStr v)]), c')).
Proof.
  apply (@renderIndicator_memoized sampleFreehand sampleFormat tapShape emptyCaches
           "M 0 0"%string).
  - reflexivity.
  - reflexivity.
Defined.

(** ** What [render] returns *)

(** The fill that [render] paints with. *)
Lemma render_shape `{JSMath} `{PerfectFreehand} `{SvgPathBuilder}
      (shape : DrawShape) (info : TLRenderInfo) (c : Caches) (e : JSXElement) :
  run (render shape info) c = Ok e ->
  let fill := if isFilled (style shape) then color (style shape) else "none"%string in
  (e = circleElement (style shape) fill /\ isDone shape = true) \/
  (exists d, e = pathElement (style shape) fill d).
Proof.
  unfold render. cbv zeta. rewrite bind_run.
  destruct (run (getBounds shape) c) as [b|err]; [|discriminate].
  destruct (_ && isDone shape) eqn:Cond.
  - intro E. injection E as <-. left. split; [reflexivity|].
    apply andb_true_iff in Cond. apply Cond.
  - rewrite bind_run.
    destruct (2 <? List.length (points shape))%nat.
    + destruct (nth_error (points shape) 1) as [p1|]; [|discriminate].
      rewrite bind_run. unfold run at 2. cbn [fst snd].
      intro E. injection E as <-. right. eexists. reflexivity.
    + intro E. injection E as <-. right. eexists. reflexivity.
Qed.

Lemma second_point_exists {A : Type} (l : list A) :
  (2 < List.length l)%nat -> exists p1, nth_error l 1 = Some p1.
Proof.
  destruct l as [|p0 [|p1 rest]]; simpl; try lia. intros _. now exists p1.
Qed.

Lemma getBounds_run_nonempty `{JSMath} (shape : DrawShape) (c : Caches) :
  caches_valid c ->
  points shape <> [] ->
  exists b, run (getBounds shape) c = Ok b.
Proof.
  intros V N. destruct (getBoundsFromPoints_spec (points shape) N) as (lb & E & _).
  rewrite (getBounds_run shape c V), E. eexists. reflexivity.
Qed.

Lemma getBounds_strokeCache `{JSMath} (shape : DrawShape) (c : Caches) :
  strokeCache (snd (getBounds shape c)) = strokeCache c.
Proof.
  rewrite getBounds_state.
  destruct (getFromCache_state Points_eq_dec pointsBoundsCache set_pointsBoundsCache
              (points shape) (Utils.getBoundsFromPoints (points shape) 0) c)
    as [-> | (v & _ & ->)]; reflexivity.
Qed.

(** X6. A stroke that is still being drawn ([isDone = false]) never renders
    as a dot: [render] returns a path element.  While it has at most two
    points the path data is empty and nothing is stored in [strokeCache]. *)
Theorem render_while_drawing `{JSMath} `{PerfectFreehand} `{SvgPathBuilder}
        (shape : DrawShape) (info : TLRenderInfo) (c : Caches) :
  caches_valid c ->
  points shape <> [] ->
  isDone shape = false ->
  exists d,
    run (render shape info) c =
    Ok (pathElement (style shape)
          (if isFilled (style shape) then color (style shape) else "none"%string) d) /\
    ((List.length (points shape) <= 2)%nat ->
     d = ""%string /\ strokeCache (snd (render shape info c)) = strokeCache c).
Proof.
  intros V N D. destruct (getBounds_run_nonempty shape c V N) as (b & Eb).
  destruct (2 <? List.length (points shape))%nat eqn:L.
  - apply Nat.ltb_lt in L.
    destruct (second_point_exists (points shape) L) as (p1 & N1).
    assert (Cond : (Qltb (width b) (size (style shape) / 2) &&
                    Qltb (height b) (size (style shape) / 2)) && isDone shape = false)
      by (rewrite D; apply andb_false_r).
    pose proof (render_outline_eq shape info c b p1 Eb L N1 Cond) as R.
    cbv zeta in R. unfold run. rewrite R.
    eexists. split; [reflexivity|]. lia.
  - assert (R : render shape info c =
                (Ok (pathElement (style shape)
                       (if isFilled (style shape) then color (style shape)
                        else "none"%string) ""%string),
                 snd (getBounds shape c))).
    { unfold render. cbv zeta. unfold bind at 1.
      rewrite (getBounds_pair shape c b Eb), D, andb_false_r.
      unfold bind. rewrite L. reflexivity. }
    unfold run. rewrite R. eexists. split; [reflexivity|].
    intros _. split; [reflexivity|]. apply getBounds_strokeCache.
Qed.

Lemma render_while_drawing_witness :
  exists d,
    run (@render sampleMath sampleFreehand sampleSvg defaultProps lightMode) emptyCaches =
    Ok (pathElement (style defaultProps) "#000"%string d) /\
    ((List.length (points defaultProps) <= 2)%nat ->
     d = ""%string /\
     strokeCache (snd (@render sampleMath sampleFreehand sampleSvg defaultProps lightMode
                         emptyCaches)) = strokeCache emptyCaches).
Proof.
  apply (@render_while_drawing sampleMath sampleFreehand sampleSvg defaultProps lightMode
           emptyCaches).
  - fresh_caches.
  - discriminate.
  - reflexivity.
Defined.

(** X7. The stroke of a rendered shape is never invisibly thin: unless the
    shape is filled with the empty colour string, the [strokeWidth] prop of
    the element that [render] returns is the style's [strokeWidth] when that
    is not 0 and 1 otherwise, also for a shape that is not filled, whose fill
    ["none"] is a truthy string. *)
Theorem render_stroke_visible `{JSMath} `{PerfectFreehand} `{SvgPathBuilder}
        (shape : DrawShape) (info : TLRenderInfo) (c : Caches) (e : JSXElement) :
  run (render shape info) c = Ok e ->
  ~ (isFilled (style shape) = true /\ color (style shape) = ""%string) ->
  exists w,
    In ("strokeWidth"%string, PNum w) (props e) /\
    ~ w == 0 /\
    w = (if Qeq_bool (strokeWidth (style shape)) 0 then 1 else strokeWidth (style shape)).
Proof.
  intros Run Fill.
  set (fill := if isFilled (style shape) then color (style shape) else "none"%string).
  assert (Truthy : String.eqb fill "" = false).
  { apply String.eqb_neq. unfold fill.
    destruct (isFilled (style shape)); [|discriminate].
    intro E. apply Fill. split; [reflexivity | exact E]. }
  exists (if Qeq_bool (strokeWidth (style shape)) 0 then 1 else strokeWidth (style shape)).
  split; [|split; [|reflexivity]].
  - destruct (render_shape shape info c e Run) as [[-> _] | (d & ->)];
      simpl; fold fill; unfold strokeWidthProp; rewrite Truthy; tauto.
  - destruct (Qeq_bool (strokeWidth (style shape)) 0) eqn:Z.
    + discriminate.
    + now apply Qeq_bool_neq.
Qed.

Lemma render_stroke_visible_witness :
  exists w,
    In ("strokeWidth"%string, PNum w)
       (props (circleElement (style tapShape) "#000"%string)) /\
    ~ w == 0 /\
    w = (if Qeq_bool (strokeWidth (style tapShape)) 0 then 1
         else strokeWidth (style tapShape)).
Proof.
  apply (@render_stroke_visible sampleMath sampleFreehand sampleSvg tapShape lightMode
           emptyCaches (circleElement (style tapShape) "#000"%string)).
  - reflexivity.
  - intros [_ E]. discriminate E.
Defined.

(** ** More on resizing *)

(** X8. Resizing keeps the stroke's samples: whenever [transform] returns,
    its points are as many as those of the initial shape and carry the same
    pressures in the same order, whatever the target, the flips and the
    current points of the shape. *)
Theorem transform_keeps_pressures `{JSMath} (shape : DrawShape) (target : TLBounds)
        (info : TLTransformInfo) (c : Caches) (r : PartialShape) :
  run (transform shape target info) c = Ok r ->
  Forall2 (fun p q => pressure q = pressure p)
          (points (initialShape info)) (new_points r) /\
  List.length (new_points r) = List.length (points (initialShape info)).
Proof.
  unfold transform. cbv zeta. rewrite bind_run.
  destruct (run (Utils.getFromCache _ _ _ _ _) c) as [ib|e]; [|discriminate].
  rewrite bind_run. unfold lift at 1, run at 1. cbn [fst].
  destruct (Utils.getBoundsFromPoints (points shape) 0) as [sb|e]; [|discriminate].
  intro E. injection E as <-. cbn [new_points]. split.
  - apply Forall2_map_graph. reflexivity.
  - apply length_map.
Qed.

Lemma transform_keeps_pressures_witness :
  exists r,
    run (@transform sampleMath diagonalShape squareTarget
           (mkTransformInfo diagonalShape (-1) 1)) emptyCaches = Ok r /\
    Forall2 (fun p q => pressure q = pressure p) (points diagonalShape) (new_points r) /\
    List.length (new_points r) = List.length (points diagonalShape).
Proof.
  eexists. split; [reflexivity|].
  apply (@transform_keeps_pressures sampleMath diagonalShape squareTarget
           (mkTransformInfo diagonalShape (-1) 1) emptyCaches).
  reflexivity.
Defined.









Lemma opt_equiv_refl (o : option Q) : opt_equiv o o.
Proof. destruct o; simpl; [reflexivity | exact I]. Qed.



(** ** More on session completion *)




(** X13. A shape whose points are already re-origined is left as it is:
    [onSessionComplete] returns its own points and point. *)
Theorem onSessionComplete_fixes_reorigined `{JSMath} (shape : DrawShape) (c : Caches) :
  caches_valid c ->
  at_origin (points shape) ->
  exists r,
    run (onSessionComplete shape) c = Ok r /\
    Partial_equiv r (mkPartial (points shape) (point shape)).
Proof.
  intros V (b & Eb & Zx & Zy).
  destruct (getBoundsFromPoints_sound _ _ Eb) as (N & Envb).
  destruct (onSessionComplete_spec shape c V N) as (lb & r & Env & Run & Sh & Pt).
  destruct (is_envelope_unique _ _ _ Env Envb) as (Q1 & Q2 & _).
  exists r. split; [exact Run|]. split; cbn [new_points new_point].
  - apply Forall2_flip. revert Sh. apply Forall2_impl.
    intros p q (Ex & Ey & Ep). cbn [fst snd] in Ex, Ey.
    unfold Point_equiv. rewrite Ep.
    split; [lra|]. split; [lra | apply opt_equiv_refl].
  - destruct Pt as [Px Py]. unfold vec_equiv, Vec.add in *; cbn [fst snd] in *.
    split; lra.
Qed.

Lemma onSessionComplete_fixes_reorigined_witness :
  exists r,
    run (@onSessionComplete sampleMath cornerShape) emptyCaches = Ok r /\
    Partial_equiv r (mkPartial (points cornerShape) (point cornerShape)).
Proof.
  apply (@onSessionComplete_fixes_reorigined sampleMath cornerShape emptyCaches).
  - fresh_caches.
  - eexists. split; [reflexivity|]. split; reflexivity.
Defined.

(** ** Completing a session, then resizing *)




(** ** Selection of rotated shapes *)

Lemma getBoundsFromPoints_nonempty `{JSMath} (pts : list Point) (r : Q) :
  pts <> [] -> exists b, Utils.getBoundsFromPoints pts r = Ok b.
Proof.
  intro N. unfold Utils.getBoundsFromPoints.
  destruct pts as [|p rest]; [congruence|].
  destruct (Qeq_bool r 0); [eexists; reflexivity|].
  simpl map. eexists. reflexivity.
Qed.

Lemma getRotatedBounds_run `{JSMath} (shape : DrawShape) (c : Caches) :
  getRotatedBounds shape c =
  (result_map (fun b => Utils.translateBounds b (point shape))
     (Utils.getBoundsFromPoints (points shape) (rotation shape)), c).
Proof.
  unfold getRotatedBounds, bind, lift.
  destruct (Utils.getBoundsFromPoints (points shape) (rotation shape)); reflexivity.
Qed.

Lemma hitTestBounds_rotated_run `{JSMath} (shape : DrawShape) (brush : TLBounds)
      (c : Caches) :
  ~ rotation shape == 0 ->
  points shape <> [] ->
  rotated_cache_valid c ->
  exists rb turned,
    run (getRotatedBounds shape) c = Ok rb /\
    rotatedPoints shape = Ok turned /\
    run (hitTestBounds shape brush) c =
    Ok (Utils.boundsContain brush rb ||
        nonEmpty (Intersect.bounds.polyline
                    (Utils.translateBounds brush (Vec.neg (point shape))) turned)).
Proof.
  intros R N V.
  destruct (getBoundsFromPoints_nonempty (points shape) (rotation shape) N) as (b & Eb).
  destruct (getBoundsFromPoints_spec (points shape) N) as (lb & El & _).
  assert (Et : rotatedPoints shape =
               Ok (map (fun pt => Vec.rotWith (xy pt) (Utils.getBoundsCenter lb)
                                              (rotation shape)) (points shape))).
  { unfold rotatedPoints. rewrite El. reflexivity. }
  do 2 eexists.
  split; [unfold run; rewrite getRotatedBounds_run, Eb; reflexivity|].
  split; [exact Et|].
  unfold hitTestBounds.
  destruct (Qeq_bool (rotation shape) 0) eqn:Z;
    [apply Qeq_bool_eq in Z; contradiction|].
  pose proof (getFromCache_run DrawShape_eq_dec rotatedCache set_rotatedCache shape
                (rotatedPoints shape) c (V shape)) as G.
  rewrite Et in G at 2. unfold rotatedPoints, run in G.
  unfold run, bind at 1. rewrite getRotatedBounds_run, Eb.
  cbn [result_map]. unfold bind.
  destruct (Utils.getFromCache _ _ _ _ _ c) as [res c']. cbn [fst] in G.
  subst res. reflexivity.
Qed.

(** X17. Whatever the rotation, a query box that fully contains the rotated
    bounds of a shape selects it. *)
Theorem containing_box_selects `{JSMath} (shape : DrawShape) (brush rb : TLBounds)
        (c : Caches) :
  caches_valid c ->
  rotated_cache_valid c ->
  run (getRotatedBounds shape) c = Ok rb ->
  contains brush rb ->
  run (hitTestBounds shape brush) c = Ok true.
Proof.
  intros V Vr Erb In.
  assert (N : points shape <> []).
  { intro E. unfold run in Erb. rewrite getRotatedBounds_run, E in Erb.
    discriminate Erb. }
  destruct (Qeq_dec (rotation shape) 0) as [Z | NZ].
  - unfold hitTestBounds. rewrite (Qeq_eq_bool _ _ Z).
    assert (Eb : run (getBounds shape) c = Ok rb).
    { rewrite (getBounds_run shape c V). unfold run in Erb.
      rewrite getRotatedBounds_run in Erb. cbn [fst] in Erb.
      rewrite (getBoundsFromPoints_unrotated _ _ Z) in Erb.
      rewrite getBoundsFromPoints_unrotated by reflexivity. exact Erb. }
    rewrite bind_run, Eb.
    rewrite (proj2 (boundsContain_iff brush rb) In). reflexivity.
  - destruct (hitTestBounds_rotated_run shape brush c NZ N Vr)
      as (rb' & turned & Erb' & _ & Run).
    rewrite Erb in Erb'. injection Erb' as <-.
    rewrite Run, (proj2 (boundsContain_iff brush rb) In). reflexivity.
Qed.

Lemma containing_box_selects_witness :
  run (@hitTestBounds sampleMath tiltedShape (mkBounds (-100) (-100) 100 100 200 200))
      emptyCaches = Ok true.
Proof.
  eapply (@containing_box_selects sampleMath tiltedShape _ _ emptyCaches).
  - fresh_caches.
  - fresh_caches.
  - reflexivity.
  - unfold contains; simpl. repeat split; reflexivity.
Defined.

(** ** The indicator path of three or more points *)

Lemma skipn_cons_inv {A : Type} (i : nat) (arr rest : list A) (a : A) :
  skipn i arr = a :: rest ->
  skipn (S i) arr = rest /\ nth_error arr i = Some a /\
  List.length arr = (i + S (List.length rest))%nat.
Proof.
  revert arr. induction i as [|i IH]; intros arr E.
  - simpl in E. subst arr. repeat split.
  - destruct arr as [|b arr]; [discriminate|].
    simpl in E. destruct (IH arr E) as (S1 & S2 & S3).
    repeat split; [exact S1 | exact S2 | simpl; lia].
Qed.

Lemma reducePath_suffix `{JSFormat} (arr rest : list vec) (i : nat) (acc : list string) :
  skipn i arr = rest ->
  reducePath arr (List.length arr) i rest acc = Ok (acc ++ pathTokens rest).
Proof.
  revert i acc. induction rest as [|[x0 y0] rest IH]; intros i acc E.
  - simpl. now rewrite app_nil_r.
  - destruct (skipn_cons_inv i arr rest (x0, y0) E) as (S1 & S2 & S3).
    simpl reducePath. destruct rest as [|[x1 y1] tl].
    + replace (i =? List.length arr - 1)%nat with true
        by (symmetry; apply Nat.eqb_eq; simpl in S3; lia).
      reflexivity.
    + replace (i =? List.length arr - 1)%nat with false
        by (symmetry; apply Nat.eqb_neq; simpl in S3; lia).
      destruct (skipn_cons_inv (S i) arr tl (x1, y1) S1) as (_ & N1 & _).
      replace (i + 1)%nat with (S i) by lia. rewrite N1.
      rewrite (IH (S i) _ S1). simpl pathTokens. now rewrite <- app_assoc.
Qed.

Lemma pathTokens_length `{JSFormat} (pts : list vec) :
  pts <> [] -> List.length (pathTokens pts) = (4 * (List.length pts - 1) + 3)%nat.
Proof.
  induction pts as [|[x0 y0] rest IH]; [congruence|]. intros _.
  destruct rest as [|[x1 y1] tl]; [reflexivity|].
  change (pathTokens ((x0, y0) :: (x1, y1) :: tl))
    with ([toFixed2 x0; toFixed2 y0; toFixed2 ((x0 + x1) / 2); toFixed2 ((y0 + y1) / 2)]
            ++ pathTokens (@cons vec (x1, y1) tl)).
  rewrite length_app. rewrite IH by discriminate. simpl List.length. lia.
Qed.

(** X19. For three or more points the indicator path is built without ever
    reading past the end of the resampled points: when [getStrokePoints]
    returns at least one point, [getSolidStrokePath] returns the joined and
    truncated tokens [M x0 y0 Q], then for every point but the last its two
    coordinates and the midpoint to its successor, then [L] and the last
    point, [4 n + 3] tokens for [n] resampled points; when it returns none,
    the read of [points[0][0]] fails with a type error. *)
Theorem getSolidStrokePath_curve `{PerfectFreehand} `{JSFormat} (shape : DrawShape) :
  (3 <= List.length (points shape))%nat ->
  match map sp_point (getStrokePoints (points shape)) with
  | [] => getSolidStrokePath shape = Throw TypeError
  | (x, y) :: rest =>
      getSolidStrokePath shape =
      Ok (truncateDecimals
            (String.concat " "
               (["M"%string; numberToString x; numberToString y; "Q"%string]
                  ++ pathTokens ((x, y) :: rest)))) /\
      List.length (["M"%string; numberToString x; numberToString y; "Q"%string]
                     ++ pathTokens ((x, y) :: rest)) =
      (4 * List.length ((x, y) :: rest) + 3)%nat
  end.
Proof.
  intro L. unfold getSolidStrokePath.
  replace (List.length (points shape) =? 0)%nat with false
    by (symmetry; apply Nat.eqb_neq; lia).
  replace (List.length (points shape) <? 3)%nat with false
    by (symmetry; apply Nat.ltb_ge; lia).
  cbv zeta.
  destruct (map sp_point (getStrokePoints (points shape))) as [|[x y] rest] eqn:Sp.
  - reflexivity.
  - cbn [nth_error]. rewrite (reducePath_suffix _ ((x, y) :: rest) 0) by reflexivity.
    split; [reflexivity|].
    rewrite length_app. rewrite pathTokens_length by discriminate.
    unfold vec. simpl List.length. lia.
Qed.

Lemma getSolidStrokePath_curve_witness :
  @getSolidStrokePath sampleFreehand sampleFormat cornerShape =
  Ok "M 0 0 Q 0 0 10/2 0/2 10 0 20/2 10/2 L 10 10"%string /\
  List.length (["M"; printQ 0; printQ 0; "Q"]%string
                 ++ @pathTokens sampleFormat [(0, 0); (10, 0); (10, 10)]) =
  (4 * 3 + 3)%nat.
Proof.
  apply (@getSolidStrokePath_curve sampleFreehand sampleFormat cornerShape).
  simpl. lia.
Defined.

(** ** What the rendering depends on *)

(** X20. The element that [render] returns depends on the points, the style
    and [isDone] only: two shapes that agree on these are rendered alike,
    wherever they are placed, however they are rotated, whatever their
    identity, and whatever the render info says. *)
Theorem render_ignores_placement `{JSMath} `{PerfectFreehand} `{SvgPathBuilder}
        (a b : DrawShape) (info info' : TLRenderInfo) (c : Caches) :
  caches_valid c ->
  points a = points b ->
  style a = style b ->
  isDone a = isDone b ->
  run (render a info) c = run (render b info') c.
Proof.
  intros V Ep Es Ed. unfold render. cbv zeta.
  rewrite !bind_run, (getBounds_run a c V), (getBounds_run b c V).
  unfold strokeOptions. rewrite Ep, Es, Ed.
  destruct (Utils.getBoundsFromPoints (points b) 0) as [lb|e]; [|reflexivity].
  cbn [result_map Utils.translateBounds width height].
  destruct (_ && isDone b); [reflexivity|].
  rewrite !bind_run.
  destruct (2 <? List.length (points b))%nat; [|reflexivity].
  destruct (nth_error (points b) 1) as [p1|]; [|reflexivity].
  rewrite !bind_run. reflexivity.
Qed.

Lemma render_ignores_placement_witness :
  run (@render sampleMath sampleFreehand sampleSvg cornerShape lightMode) emptyCaches =
  run (@render sampleMath sampleFreehand sampleSvg tiltedShape (mkRenderInfo true))
      emptyCaches.
Proof.
  apply (@render_ignores_placement sampleMath sampleFreehand sampleSvg cornerShape
           tiltedShape lightMode (mkRenderInfo true) emptyCaches).
  - fresh_caches.
  - reflexivity.
  - reflexivity.
  - reflexivity.
Defined.
